(** * AlphaAgents backtesting engine: a shallow embedding of
      [AlphaAgents/backtesting.py] (class [PortfolioBacktester]).

    Arithmetic model.  The Python code computes on IEEE doubles through
    pandas and numpy.  Here a finite double is a real number ([R]) and the
    one non-finite value modelled is [NaN]: pandas' sample standard
    deviation of fewer than two observations, [min]/[max] of an empty
    series, a [0/0] division, a correlation with a zero variance, and a
    negative base raised to a non-integral power.  Rounding and overflow are
    not modelled, so every equation on [R] below is an equation of exact
    arithmetic and speaks of the code up to rounding, for magnitudes that do
    not overflow.  Where rounding decides which branch the code takes (the
    guard [volatility > 0] on a series of equal returns) the computation is
    also given on binary64 floats ([std_double] and what follows it).
    Closing prices delivered by the market-data provider are positive, hence
    no division of the program has a zero divisor with a non-zero dividend.

    The initial capital is positive.

    Python-level faults are explicit: the only exceptions the modelled code
    can raise are the [ZeroDivisionError]s of [252 / len(returns)] and of
    [v / total_weight], and the [IndexError] of [iloc[-1]] on an empty
    series.  Printing is not modelled. *)

From Stdlib Require Import String PrimFloat.
From Stdlib Require Import Reals Lra Lia List Arith Bool.
Import ListNotations.
Open Scope string_scope.
Open Scope R_scope.

(** ** Python values *)

Definition ticker := string.
Definition date := nat.

(** A numpy float: finite or NaN. *)
Inductive npfloat : Type :=
| Num (r : R)
| NaN.

Inductive exn : Type :=
| ZeroDivisionError
| IndexError.

(** The result of running a piece of Python: a value or a raised exception. *)
Inductive outcome (A : Type) : Type :=
| Returns (a : A)
| Raises (e : exn).
Arguments Returns {A} a.
Arguments Raises {A} e.

Definition bind {A B : Type} (m : outcome A) (k : A -> outcome B) : outcome B :=
  match m with
  | Returns a => k a
  | Raises e => Raises e
  end.

Notation "x <- m ;; k" := (bind m (fun x => k))
  (at level 61, m at next level, right associativity).

(** ** Insertion-ordered dictionaries keyed by strings *)

Module Dict.
Section Dict.
Context {V : Type}.

Definition t := list (string * V).

(** [d[k] = v]: overwrite in place, or append a new key. *)
Fixpoint set (k : string) (v : V) (d : t) : t :=
  match d with
  | [] => [(k, v)]
  | (k', v') :: tl =>
      if String.eqb k k' then (k, v) :: tl else (k', v') :: set k v tl
  end.

Fixpoint get (k : string) (d : t) : option V :=
  match d with
  | [] => None
  | (k', v') :: tl => if String.eqb k k' then Some v' else get k tl
  end.

(** The dictionary without the key [k]. *)
Fixpoint remove (k : string) (d : t) : t :=
  match d with
  | [] => []
  | (k', v') :: tl =>
      if String.eqb k k' then remove k tl else (k', v') :: remove k tl
  end.

(** [d.pop(k, None)]: the value removed (if any) and the remaining dict. *)
Definition pop (k : string) (d : t) : option V * t := (get k d, remove k d).

Definition keys (d : t) : list string := map fst d.
Definition vals (d : t) : list V := map snd d.
End Dict.
Arguments t V : clear implicits.
End Dict.

(** ** Series and numpy/pandas primitives *)

(** A pandas Series of finite floats indexed by trading date. *)
Definition Series := list (date * R).

Definition index (s : Series) : list date := map fst s.
Definition values (s : Series) : list R := map snd s.

Definition np_mul (x y : npfloat) : npfloat :=
  match x, y with
  | Num a, Num b => Num (a * b)
  | _, _ => NaN
  end.

Definition np_sub (x y : npfloat) : npfloat :=
  match x, y with
  | Num a, Num b => Num (a - b)
  | _, _ => NaN
  end.

(** Float division without a Python-level fault (numpy semantics): a zero
    divisor gives a non-finite result. *)
Definition np_div (x y : npfloat) : npfloat :=
  match x, y with
  | Num a, Num b => if Req_dec_T b 0 then NaN else Num (a / b)
  | _, _ => NaN
  end.

(** [x > 0]; any comparison with NaN is false. *)
Definition np_pos (x : npfloat) : bool :=
  match x with
  | Num a => if Rlt_dec 0 a then true else false
  | NaN => false
  end.

Definition Rltb (a b : R) : bool := if Rlt_dec a b then true else false.

Definition sum (l : list R) : R := fold_right Rplus 0 l.
Definition prod (l : list R) : R := fold_right Rmult 1 l.
Definition mean (l : list R) : R := sum l / INR (length l).

(** [(1 + s)] on the values. *)
Definition one_plus (l : list R) : list R := map (fun r => 1 + r) l.

(** [cumprod]: the running product, left to right. *)
Fixpoint cumprod_from (acc : R) (l : list R) : list R :=
  match l with
  | [] => []
  | x :: tl => (acc * x) :: cumprod_from (acc * x) tl
  end.
Definition cumprod (l : list R) : list R := cumprod_from 1 l.

(** [expanding().max()]: the running maximum. *)
Fixpoint expanding_max_from (acc : R) (l : list R) : list R :=
  match l with
  | [] => []
  | x :: tl => Rmax acc x :: expanding_max_from (Rmax acc x) tl
  end.
Definition expanding_max (l : list R) : list R :=
  match l with
  | [] => []
  | x :: tl => x :: expanding_max_from x tl
  end.

(** Sum of squared deviations from the mean. *)
Definition ssd (l : list R) : R :=
  sum (map (fun x => (x - mean l) * (x - mean l)) l).

(** [Series.std()], the sample standard deviation (ddof = 1): NaN for fewer
    than two observations. *)
Definition std (l : list R) : npfloat :=
  if (length l <? 2)%nat then NaN
  else Num (sqrt (ssd l / (INR (length l) - 1))).

(** [Series.max()] and [Series.min()]: NaN on the empty series. *)
Definition series_max (l : list R) : npfloat :=
  match l with
  | [] => NaN
  | x :: tl => Num (fold_left Rmax tl x)
  end.
Definition series_min (l : list R) : npfloat :=
  match l with
  | [] => NaN
  | x :: tl => Num (fold_left Rmin tl x)
  end.

(** [min()] of a float series that may hold NaN: NaN entries are skipped. *)
Fixpoint dropna_values (l : list npfloat) : list R :=
  match l with
  | [] => []
  | Num r :: tl => r :: dropna_values tl
  | NaN :: tl => dropna_values tl
  end.
Definition nanmin (l : list npfloat) : npfloat := series_min (dropna_values l).

(** [base ** (num / den)] for a float base and the float quotient of two
    positive Python ints: a negative base has a finite power only when the
    exponent is integral. *)
Definition np_power (base : R) (num den : nat) : npfloat :=
  if Rlt_dec 0 base then Num (Rpower base (INR num / INR den))
  else if Req_dec_T base 0 then Num (if (num =? 0)%nat then 1 else 0)
  else if (num mod den =? 0)%nat then Num (base ^ (num / den))
  else NaN.

(** Pearson correlation ([Series.corr], [DataFrame.corr]). *)
Definition covsum (xs ys : list R) : R :=
  sum (map (fun p => (fst p - mean xs) * (snd p - mean ys)) (combine xs ys)).
Definition pearson (xs ys : list R) : npfloat :=
  if Req_dec_T (ssd xs * ssd ys) 0 then NaN
  else Num (covsum xs ys / sqrt (ssd xs * ssd ys)).

(** [s1.align(s2, join='inner')]: both series restricted to the dates they
    share (indexes are strictly increasing, so both keep the same order). *)
Definition has_date (d : date) (s : Series) : bool :=
  existsb (Nat.eqb d) (index s).
Definition align_inner (s1 s2 : Series) : Series * Series :=
  (filter (fun p => has_date (fst p) s2) s1,
   filter (fun p => has_date (fst p) s1) s2).

(** Element-wise difference of two series over the same index. *)
Definition series_sub (s1 s2 : Series) : list R :=
  map (fun p => snd (fst p) - snd (snd p)) (combine s1 s2).

(** ** [calculate_performance_metrics] *)

Definition Metrics := Dict.t npfloat.

Definition sqrt252 : npfloat := Num (sqrt 252).
Definition pct (x : npfloat) : npfloat := np_mul x (Num 100).

Definition total_return_of (returns : Series) : R :=
  prod (one_plus (values returns)) - 1.

Definition downside_returns_of (returns : Series) : Series :=
  filter (fun p => Rltb (snd p) 0) returns.

Definition downside_volatility_of (returns : Series) : npfloat :=
  let downside_returns := downside_returns_of returns in
  if (0 <? length downside_returns)%nat
  then np_mul (std (values downside_returns)) sqrt252
  else Num 0.

Definition drawdown_of (returns : Series) : list npfloat :=
  let cumulative := cumprod (one_plus (values returns)) in
  let running_max := expanding_max cumulative in
  map (fun p => np_div (Num (fst p - snd p)) (Num (snd p)))
      (combine cumulative running_max).

(** The benchmark block (source lines 122-137). *)
Definition benchmark_metrics (returns : Series) (total_return : R)
    (benchmark_returns : option Series) (metrics : Metrics) : Metrics :=
  match benchmark_returns with
  | None => metrics
  | Some bench =>
      if (0 <? length bench)%nat then
        let aligned_returns := fst (align_inner returns bench) in
        let aligned_benchmark := snd (align_inner returns bench) in
        if (0 <? length aligned_returns)%nat then
          let correlation :=
            pearson (values aligned_returns) (values aligned_benchmark) in
          let excess_returns := series_sub aligned_returns aligned_benchmark in
          let tracking_error := np_mul (std excess_returns) sqrt252 in
          let information_ratio :=
            if np_pos tracking_error
            then np_div (Num (mean excess_returns * 252)) tracking_error
            else Num 0 in
          let benchmark_total := prod (one_plus (values bench)) - 1 in
          Dict.set "alpha" (pct (Num (total_return - benchmark_total)))
            (Dict.set "information_ratio" information_ratio
              (Dict.set "tracking_error" (pct tracking_error)
                (Dict.set "correlation_to_benchmark" correlation metrics)))
        else metrics
      else metrics
  end.

Definition calculate_performance_metrics (returns : Series)
    (benchmark_returns : option Series) : outcome Metrics :=
  let total_return := total_return_of returns in
  (* 252 / len(returns) is a division of Python ints *)
  match length returns with
  | O => Raises ZeroDivisionError
  | S _ =>
      let annualized_return :=
        np_sub (np_power (1 + total_return) 252 (length returns)) (Num 1) in
      let volatility := np_mul (std (values returns)) sqrt252 in
      let downside_volatility := downside_volatility_of returns in
      let sharpe_ratio :=
        if np_pos volatility then np_div annualized_return volatility
        else Num 0 in
      let sortino_ratio :=
        if np_pos downside_volatility
        then np_div annualized_return downside_volatility
        else Num 0 in
      let max_drawdown := nanmin (drawdown_of returns) in
      let win_rate :=
        if (0 <? length returns)%nat
        then Num (INR (length (filter (fun p => Rltb 0 (snd p)) returns))
                  / INR (length returns))
        else Num 0 in
      let metrics : Metrics :=
        [ ("total_return", pct (Num total_return));
          ("annualized_return", pct annualized_return);
          ("volatility", pct volatility);
          ("sharpe_ratio", sharpe_ratio);
          ("sortino_ratio", sortino_ratio);
          ("max_drawdown", pct max_drawdown);
          ("win_rate", pct win_rate);
          ("best_day", pct (series_max (values returns)));
          ("worst_day", pct (series_min (values returns))) ] in
      Returns (benchmark_metrics returns total_return benchmark_returns metrics)
  end.

(** ** The volatility guard on binary64 floats

    Lines 92 and 97 of [calculate_performance_metrics] evaluated on doubles.
    [Series.std()] is pandas' two-pass sample variance: the mean is the sum
    divided by the count, the squared deviations from it are summed and
    divided by [count - 1].  Sums are numpy's: an accumulator started at 0
    to which the pairwise sum of the array is added (fewer than 8 items are
    added left to right; up to 128 items go through eight running lanes that
    are combined in a fixed tree, followed by the remaining items; longer
    arrays are split in two). *)

Definition sum_sequential (from : float) (a : list float) : float :=
  fold_left PrimFloat.add a from.

Fixpoint add_lanes (r a : list float) : list float :=
  match r, a with
  | x :: r', y :: a' => PrimFloat.add x y :: add_lanes r' a'
  | _, _ => r
  end.

(** The unrolled loop over the complete blocks of eight items. *)
Fixpoint lane_loop (fuel : nat) (r a : list float) : list float * list float :=
  match fuel with
  | O => (r, a)
  | S fuel' =>
      if (8 <=? length a)%nat
      then lane_loop fuel' (add_lanes r (firstn 8 a)) (skipn 8 a)
      else (r, a)
  end.

Definition combine_lanes (r : list float) : float :=
  match r with
  | [r0; r1; r2; r3; r4; r5; r6; r7] =>
      PrimFloat.add
        (PrimFloat.add (PrimFloat.add r0 r1) (PrimFloat.add r2 r3))
        (PrimFloat.add (PrimFloat.add r4 r5) (PrimFloat.add r6 r7))
  | _ => 0%float
  end.

Fixpoint pairwise_sum (fuel : nat) (a : list float) : float :=
  match fuel with
  | O => sum_sequential 0%float a
  | S fuel' =>
      if (length a <? 8)%nat then sum_sequential 0%float a
      else if (length a <=? 128)%nat then
        let looped := lane_loop (length a) (firstn 8 a) (skipn 8 a) in
        sum_sequential (combine_lanes (fst looped)) (snd looped)
      else
        let n2 := (length a / 2 - (length a / 2) mod 8)%nat in
        PrimFloat.add (pairwise_sum fuel' (firstn n2 a))
                      (pairwise_sum fuel' (skipn n2 a))
  end.

(** [ndarray.sum()]. *)
Definition np_sum (a : list float) : float :=
  PrimFloat.add 0%float (pairwise_sum (length a) a).

(** A count as a double (exact below 2^53). *)
Fixpoint float_of_nat (n : nat) : float :=
  match n with
  | O => 0%float
  | S n' => PrimFloat.add (float_of_nat n') 1%float
  end.

(** [Series.std()] (ddof = 1) on doubles, for two observations or more. *)
Definition std_double (a : list float) : float :=
  let count := float_of_nat (length a) in
  let avg := PrimFloat.div (np_sum a) count in
  let sqr := map (fun x => PrimFloat.mul (PrimFloat.sub avg x)
                                         (PrimFloat.sub avg x)) a in
  PrimFloat.sqrt
    (PrimFloat.div (np_sum sqr) (PrimFloat.sub count 1%float)).

(** Line 92: [returns.std() * np.sqrt(252)]. *)
Definition volatility_double (a : list float) : float :=
  PrimFloat.mul (std_double a) (PrimFloat.sqrt 252%float).

(** Line 97: [annualized_return / volatility if volatility > 0 else 0]. *)
Definition sharpe_ratio_double (annualized_return : float) (a : list float)
    : float :=
  if PrimFloat.ltb 0%float (volatility_double a)
  then PrimFloat.div annualized_return (volatility_double a)
  else 0%float.

(** The double nearest to 0.001. *)
Definition one_per_mille : float := 0x1.0624dd2f1a9fcp-10%float.

(** ** Data frames *)

(** A frame with cells of type [C]: column labels and date-indexed rows.
    Cells of a raw frame are [npfloat] (NaN marks a missing value); a frame
    returned by [dropna] holds finite floats only. *)
Record Frame (C : Type) : Type := mkFrame {
  columns : list ticker;
  rows : list (date * list C)
}.
Arguments mkFrame {C} columns rows.
Arguments columns {C} f.
Arguments rows {C} f.

(** [DataFrame.empty]: some axis has length zero. *)
Definition frame_empty {C : Type} (f : Frame C) : bool :=
  (length (rows f) =? 0)%nat || (length (columns f) =? 0)%nat.

(** The sorted union of the date indexes of the columns. *)
Fixpoint insert_date (d : date) (l : list date) : list date :=
  match l with
  | [] => [d]
  | x :: tl =>
      if (d <? x)%nat then d :: l
      else if (d =? x)%nat then l
      else x :: insert_date d tl
  end.

Definition union_index (cols : list Series) : list date :=
  fold_right (fun s acc => fold_right insert_date acc (index s)) [] cols.

Fixpoint series_at (d : date) (s : Series) : npfloat :=
  match s with
  | [] => NaN
  | (d', v) :: tl => if (d =? d')%nat then Num v else series_at d tl
  end.

(** [pd.DataFrame({ticker: data['Close'] for ticker, data in d.items()})]:
    one column per key, rows over the union of the dates. *)
Definition make_frame (data : Dict.t Series) : Frame npfloat :=
  mkFrame (Dict.keys data)
    (map (fun d => (d, map (series_at d) (Dict.vals data)))
         (union_index (Dict.vals data))).

(** [fillna(method='ffill')]: a missing cell takes the last value seen above
    it in its column. *)
Fixpoint fill_row (prev cur : list npfloat) : list npfloat :=
  match cur with
  | [] => []
  | c :: cs =>
      match c with
      | Num _ => c
      | NaN => hd NaN prev
      end :: fill_row (tl prev) cs
  end.

Fixpoint ffill_from (prev : list npfloat) (rs : list (date * list npfloat))
    : list (date * list npfloat) :=
  match rs with
  | [] => []
  | (d, r) :: tl => (d, fill_row prev r) :: ffill_from (fill_row prev r) tl
  end.

Definition ffill (f : Frame npfloat) : Frame npfloat :=
  mkFrame (columns f) (ffill_from [] (rows f)).

(** [dropna()]: rows holding a NaN are removed. *)
Fixpoint all_num (l : list npfloat) : option (list R) :=
  match l with
  | [] => Some []
  | Num r :: tl => option_map (cons r) (all_num tl)
  | NaN :: tl => None
  end.

Fixpoint dropna_rows (rs : list (date * list npfloat)) : list (date * list R) :=
  match rs with
  | [] => []
  | (d, r) :: tl =>
      match all_num r with
      | Some r' => (d, r') :: dropna_rows tl
      | None => dropna_rows tl
      end
  end.

Definition dropna (f : Frame npfloat) : Frame R :=
  mkFrame (columns f) (dropna_rows (rows f)).

(** [pct_change()]: [p[t] / p[t-1] - 1], the first row being NaN. *)
Definition pct_cell (p prev : R) : npfloat :=
  np_sub (np_div (Num p) (Num prev)) (Num 1).

Fixpoint pct_change_rows_from (prev : list R) (rs : list (date * list R))
    : list (date * list npfloat) :=
  match rs with
  | [] => []
  | (d, r) :: tl =>
      (d, map (fun p => pct_cell (fst p) (snd p)) (combine r prev))
        :: pct_change_rows_from r tl
  end.

Definition pct_change_rows (rs : list (date * list R))
    : list (date * list npfloat) :=
  match rs with
  | [] => []
  | (d, r) :: tl => (d, map (fun _ => NaN) r) :: pct_change_rows_from r tl
  end.

Definition pct_change (f : Frame R) : Frame npfloat :=
  mkFrame (columns f) (pct_change_rows (rows f)).

(** The same on a single series, as in [calculate_returns]. *)
Fixpoint series_pct_change_from (prev : R) (s : Series) : list (date * npfloat) :=
  match s with
  | [] => []
  | (d, p) :: tl => (d, pct_cell p prev) :: series_pct_change_from p tl
  end.

Definition series_pct_change (s : Series) : list (date * npfloat) :=
  match s with
  | [] => []
  | (d, p) :: tl => (d, NaN) :: series_pct_change_from p tl
  end.

Fixpoint series_dropna (s : list (date * npfloat)) : Series :=
  match s with
  | [] => []
  | (d, Num r) :: tl => (d, r) :: series_dropna tl
  | (d, NaN) :: tl => series_dropna tl
  end.

(** [frame[ticker]]: the column labelled [ticker]. *)
Fixpoint position (t : ticker) (cols : list ticker) : option nat :=
  match cols with
  | [] => None
  | c :: tl => if String.eqb t c then Some O else option_map S (position t tl)
  end.

Definition column (f : Frame R) (t : ticker) : Series :=
  match position t (columns f) with
  | Some j => map (fun row => (fst row, nth j (snd row) 0)) (rows f)
  | None => []
  end.

(** [frame.mean(axis=1)]: the mean of each row. *)
Definition mean_axis1 (f : Frame R) : Series :=
  map (fun row => (fst row, mean (snd row))) (rows f).

(** [frame.corr()]: pairwise Pearson correlation of the columns. *)
Definition corr (f : Frame R) : Dict.t (Dict.t npfloat) :=
  map (fun a =>
         (a, map (fun b =>
                    (b, pearson (values (column f a)) (values (column f b))))
                 (columns f)))
      (columns f).

(** A series with the same index and new values. *)
Definition with_values (s : Series) (vs : list R) : Series :=
  combine (index s) vs.

(** [capital * (1 + s).cumprod()]. *)
Definition compound (capital : R) (s : Series) : Series :=
  with_values s (map (Rmult capital) (cumprod (one_plus (values s)))).

(** ** The backtester *)

(** What the market-data provider answers for one ticker over the requested
    window: a price frame (its [Close] column; possibly without rows) or an
    error. *)
Inductive response : Type :=
| History (close : Series)
| ProviderError.

Definition Provider := ticker -> string -> string -> response.

Record BacktestResult : Type := mkResult {
  portfolio_metrics : Metrics;
  individual_metrics : Dict.t Metrics;
  portfolio_weights : option (Dict.t R);
  portfolio_returns : Series;
  portfolio_value : Series;
  final_value : R;
  total_return_pct : R;
  correlation_matrix : Dict.t (Dict.t npfloat);
  tickers : list ticker;
  start_date : string;
  end_date : string;
  trading_days : nat
}.

(** The dictionary a backtest returns: [{}] or the populated result. *)
Inductive BacktestDict : Type :=
| EmptyDict
| Results (r : BacktestResult).

Record PortfolioBacktester : Type := mkBacktester {
  initial_capital : R;
  results : BacktestDict
}.

Section Backtester.
Variable provider : Provider.

(** The loop of [fetch_historical_data]: a ticker with an empty frame or a
    provider error is skipped. *)
Fixpoint fetch_loop (start_date end_date : string) (tickers : list ticker)
    (historical_data : Dict.t Series) : Dict.t Series :=
  match tickers with
  | [] => historical_data
  | t :: tl =>
      match provider t start_date end_date with
      | History df =>
          if (0 <? length df)%nat
          then fetch_loop start_date end_date tl (Dict.set t df historical_data)
          else fetch_loop start_date end_date tl historical_data
      | ProviderError => fetch_loop start_date end_date tl historical_data
      end
  end.

Definition fetch_historical_data (tickers : list ticker)
    (start_date end_date : string) : Dict.t Series :=
  fetch_loop start_date end_date tickers [].

(** [data['Close'].pct_change().dropna()]. *)
Definition calculate_returns (data : Series) : Series :=
  series_dropna (series_pct_change data).

(** Fetching, setting the benchmark aside and aligning the prices: the
    statements shared by both backtests (source lines 171-187 and
    269-282). *)
Definition load_prices (tickers : list ticker) (start_date end_date : string)
    (benchmark : ticker) : option Series * Frame R :=
  let all_tickers := (tickers ++ [benchmark])%list in
  let historical_data :=
    fetch_historical_data all_tickers start_date end_date in
  let popped := Dict.pop benchmark historical_data in
  let benchmark_data := fst popped in
  let historical_data := snd popped in
  let prices := make_frame historical_data in
  let prices := dropna (ffill prices) in
  (benchmark_data, prices).

(** The loop filling [individual_metrics]. *)
Fixpoint individual_loop (returns : Frame R) (cols : list ticker)
    (individual_metrics : Dict.t Metrics) : outcome (Dict.t Metrics) :=
  match cols with
  | [] => Returns individual_metrics
  | t :: tl =>
      m <- calculate_performance_metrics (column returns t) None ;;
      individual_loop returns tl (Dict.set t m individual_metrics)
  end.

(** [series.iloc[-1]]. *)
Definition iloc_last (s : Series) : outcome R :=
  match rev s with
  | [] => Raises IndexError
  | (_, v) :: _ => Returns v
  end.

(** Source lines 195-234 and 290-330: from the aligned prices and the
    portfolio return series to the result dictionary. *)
Definition finish_backtest (self : PortfolioBacktester)
    (benchmark_data : option Series) (prices returns : Frame R)
    (weights : option (Dict.t R)) (portfolio_returns : Series)
    (start_date end_date : string)
    : outcome (PortfolioBacktester * BacktestDict) :=
  let portfolio_value := compound (initial_capital self) portfolio_returns in
  metrics <- calculate_performance_metrics portfolio_returns
               (option_map calculate_returns benchmark_data) ;;
  individual_metrics <- individual_loop returns (columns prices) [] ;;
  final_value <- iloc_last portfolio_value ;;
  let res := mkResult metrics individual_metrics weights portfolio_returns
               portfolio_value final_value
               ((final_value / initial_capital self - 1) * 100)
               (corr returns) (columns prices) start_date end_date
               (length (rows prices)) in
  Returns (mkBacktester (initial_capital self) (Results res), Results res).

Definition backtest_equal_weight_portfolio (self : PortfolioBacktester)
    (tickers : list ticker) (start_date end_date : string)
    (benchmark : ticker) : outcome (PortfolioBacktester * BacktestDict) :=
  let loaded := load_prices tickers start_date end_date benchmark in
  let benchmark_data := fst loaded in
  let prices := snd loaded in
  if frame_empty prices then Returns (self, EmptyDict)
  else
    let returns := dropna (pct_change prices) in
    let portfolio_returns := mean_axis1 returns in
    finish_backtest self benchmark_data prices returns None
      portfolio_returns start_date end_date.

(** Python's [a / b] on floats. *)
Definition py_truediv (a b : R) : outcome R :=
  if Req_dec_T b 0 then Raises ZeroDivisionError else Returns (a / b).

(** [{k: v/total_weight for k, v in portfolio_weights.items()}]. *)
Fixpoint divide_weights (items : Dict.t R) (total_weight : R)
    : outcome (Dict.t R) :=
  match items with
  | [] => Returns []
  | (k, v) :: tl =>
      v' <- py_truediv v total_weight ;;
      tl' <- divide_weights tl total_weight ;;
      Returns ((k, v') :: tl')
  end.

(** The "Validate weights" block (source lines 262-266). *)
Definition validate_weights (portfolio_weights : Dict.t R)
    : outcome (Dict.t R) :=
  let total_weight := sum (Dict.vals portfolio_weights) in
  if Rlt_dec 0.01 (Rabs (total_weight - 1))
  then divide_weights portfolio_weights total_weight
  else Returns portfolio_weights.

(** [portfolio_weights.get(ticker, 0)]. *)
Definition weight_of (portfolio_weights : Dict.t R) (t : ticker) : R :=
  match Dict.get t portfolio_weights with
  | Some w => w
  | None => 0
  end.

(** [sum(returns[ticker] * portfolio_weights.get(ticker, 0) for ticker in
    returns.columns)], read row by row: the columns share one index, so
    the sum of the scaled columns is the weighted sum of each row, added
    left to right from Python's initial [0]. *)
Definition weighted_row (portfolio_weights : Dict.t R) (cols : list ticker)
    (row : list R) : R :=
  fold_left (fun acc p => acc + fst p * weight_of portfolio_weights (snd p))
            (combine row cols) 0.

Definition weighted_sum (portfolio_weights : Dict.t R) (f : Frame R) : Series :=
  map (fun row => (fst row, weighted_row portfolio_weights (columns f) (snd row)))
      (rows f).

Definition backtest_weighted_portfolio (self : PortfolioBacktester)
    (portfolio_weights : Dict.t R) (start_date end_date : string)
    (benchmark : ticker) : outcome (PortfolioBacktester * BacktestDict) :=
  portfolio_weights <- validate_weights portfolio_weights ;;
  let tickers := Dict.keys portfolio_weights in
  let loaded := load_prices tickers start_date end_date benchmark in
  let benchmark_data := fst loaded in
  let prices := snd loaded in
  if frame_empty prices then Returns (self, EmptyDict)
  else
    let returns := dropna (pct_change prices) in
    let portfolio_returns := weighted_sum portfolio_weights returns in
    finish_backtest self benchmark_data prices returns
      (Some portfolio_weights) portfolio_returns start_date end_date.
End Backtester.

(** ** Saving results ([save_results], source lines 399-422) *)

(** The dictionary handed to [json.dump]. *)
Record SaveData : Type := mkSaveData {
  saved_portfolio_metrics : Metrics;
  saved_individual_metrics : Dict.t Metrics;
  saved_portfolio_weights : Dict.t R;
  saved_final_value : R;
  saved_total_return_pct : R;
  saved_tickers : list ticker;
  saved_start_date : string;
  saved_end_date : string;
  saved_trading_days : nat;
  saved_correlation_matrix : Dict.t (Dict.t npfloat)
}.

(** [None]: "No results to save", nothing is written. *)
Definition save_results (self : PortfolioBacktester) : option SaveData :=
  match results self with
  | EmptyDict => None
  | Results r =>
      Some (mkSaveData (portfolio_metrics r) (individual_metrics r)
              match portfolio_weights r with
              | Some w => w
              | None => []
              end
              (final_value r) (total_return_pct r) (tickers r)
              (start_date r) (end_date r) (trading_days r)
              (correlation_matrix r))
  end.

(** ** Weights of a generated portfolio ([extract_weights_from_portfolio],
       [backtest.py] lines 209-249 and [app.py] lines 262-291) *)

(** A holding: its ticker and the weight attributes it has. *)
Record Holding : Type := mkHolding {
  h_ticker : ticker;
  h_allocation : option R;
  h_weight_percent : option R;
  h_weight : option R
}.

(** What the portfolio agent hands back: nothing, a text, or an object that
    may have a [holdings] and an [allocations] attribute. *)
Inductive PortfolioData : Type :=
| NoPortfolio
| TextPortfolio (text : string)
| PortfolioObject (holdings allocations : option (list Holding)).

Definition holding_weight (n : nat) (h : Holding) : R :=
  match h_allocation h with
  | Some a => a / 100
  | None =>
      match h_weight_percent h with
      | Some wp => wp / 100
      | None =>
          match h_weight h with
          | Some w => if Rlt_dec 1 w then w / 100 else w
          | None => 1 / INR n
          end
      end
  end.

Fixpoint extract_loop (n : nat) (holdings : list Holding) (weights : Dict.t R)
    : Dict.t R :=
  match holdings with
  | [] => weights
  | h :: tl => extract_loop n tl (Dict.set (h_ticker h) (holding_weight n h) weights)
  end.

Definition extract_weights_from_portfolio (portfolio_data : PortfolioData)
    : option (Dict.t R) :=
  match portfolio_data with
  | NoPortfolio => None
  | TextPortfolio _ => None
  | PortfolioObject holdings allocations =>
      let holdings :=
        match holdings with
        | Some hs => Some hs
        | None => allocations
        end in
      match holdings with
      | None => None
      | Some [] => None
      | Some hs => Some (extract_loop (length hs) hs [])
      end
  end.

(** ** Market tools ([tools/market_tools.py]) *)

(** [Series.mean()]: NaN on the empty series. *)
Definition series_mean (l : list R) : npfloat :=
  match l with
  | [] => NaN
  | _ => Num (mean l)
  end.

(** The dictionary returned by [calculate_volatility]: the three metrics, or
    the error entry written by the [except] branch. *)
Inductive VolatilityResult : Type :=
| VolatilityError
| VolatilityMetrics (volatility avg_return sharpe_ratio : npfloat).

(** [calculate_volatility] (lines 72-96) on the provider's answer for the
    ticker and period. *)
Definition calculate_volatility (hist : response) : VolatilityResult :=
  match hist with
  | ProviderError => VolatilityError
  | History close =>
      let returns := values (calculate_returns close) in
      VolatilityMetrics
        (np_mul (std returns) (Num (sqrt 252)))
        (np_mul (series_mean returns) (Num 252))
        (if np_pos (std returns)
         then np_div (np_mul (series_mean returns) (Num 252))
                     (np_mul (std returns) (Num (sqrt 252)))
         else Num 0)
  end.

(** The sector ETF table of [get_sector_performance] (lines 173-185). *)
Definition sector_etfs : Dict.t ticker :=
  [ ("Technology", "XLK"); ("Healthcare", "XLV"); ("Financials", "XLF");
    ("Energy", "XLE"); ("Consumer Discretionary", "XLY");
    ("Consumer Staples", "XLP"); ("Industrials", "XLI"); ("Materials", "XLB");
    ("Utilities", "XLU"); ("Real Estate", "XLRE");
    ("Communication Services", "XLC") ].

Inductive SectorResult : Type :=
| SectorError
| SectorPerformance (etf_ticker : ticker) (change_1m : npfloat)
    (current_price : R).

(** [series.iloc[0]]. *)
Definition iloc_first (s : Series) : outcome R :=
  match s with
  | [] => Raises IndexError
  | (_, v) :: _ => Returns v
  end.

(** [get_sector_performance] (lines 162-200); [history] answers the
    one-month request for a ticker.  Any exception ends in the error
    entry. *)
Definition get_sector_performance (history : ticker -> response)
    (sector : string) : SectorResult :=
  let etf_ticker :=
    match Dict.get sector sector_etfs with
    | Some e => e
    | None => "SPY"
    end in
  match history etf_ticker with
  | ProviderError => SectorError
  | History close =>
      match iloc_last close, iloc_first close with
      | Returns last, Returns first =>
          SectorPerformance etf_ticker
            (np_mul (np_div (Num (last - first)) (Num first)) (Num 100))
            last
      | _, _ => SectorError
      end
  end.

(** ** The drawdown chart ([create_drawdown_chart], [app.py] lines 180-183) *)

(** [(cumulative - running_max) / running_max * 100] on the portfolio value
    series. *)
Definition drawdown_chart (portfolio_value : Series) : list npfloat :=
  let cumulative := values portfolio_value in
  let running_max := expanding_max cumulative in
  map (fun p => np_mul (np_div (Num (fst p - snd p)) (Num (snd p))) (Num 100))
      (combine cumulative running_max).

(** No price of the history is zero. *)
Definition nonzero_prices (s : Series) : Prop :=
  Forall (fun p => snd p <> 0) s.

(** A cell that is missing or holds a non-zero price. *)
Definition cell_ok (c : npfloat) : Prop :=
  match c with
  | Num v => v <> 0
  | NaN => True
  end.

(** The provider never quotes a zero price. *)
Definition quotes_nonzero (provider : Provider) (sd ed : string) : Prop :=
  forall t df, provider t sd ed = History df -> nonzero_prices df.

(** A strictly increasing list of dates. *)
Fixpoint increasing (l : list date) : Prop :=
  match l with
  | [] => True
  | x :: tl => (forall y, In y tl -> (x < y)%nat) /\ increasing tl
  end.


(** The four keys of the benchmark block. *)
Definition benchmark_keys : list string :=
  [ "correlation_to_benchmark"; "tracking_error"; "information_ratio";
    "alpha" ].

(** The benchmark series shares a date with the return series. *)
Definition shares_a_date (returns : Series) (bench : option Series) : bool :=
  match bench with
  | Some b => existsb (fun p => has_date (fst p) b) returns
  | None => false
  end.

(** ** Vocabulary of the statements *)

(** The nine keys of the metrics dictionary built at source lines 109-119. *)
Definition metric_keys : list string :=
  [ "total_return"; "annualized_return"; "volatility"; "sharpe_ratio";
    "sortino_ratio"; "max_drawdown"; "win_rate"; "best_day"; "worst_day" ].

(** The capital curve follows the return series day by day. *)
Definition compounds_daily (capital : R) (returns value : Series) : Prop :=
  index value = index returns /\
  forall t, (t < length returns)%nat ->
    nth t (values value) 0
      = capital * prod (firstn (S t) (one_plus (values returns))).

(** The provider has a non-empty price history for the ticker. *)
Definition has_data (provider : Provider) (start_date end_date : string)
    (t : ticker) : bool :=
  match provider t start_date end_date with
  | History df => (0 <? length df)%nat
  | ProviderError => false
  end.

(** The non-empty price history the provider has for a ticker, if any. *)
Definition history_of (provider : Provider) (start_date end_date : string)
    (t : ticker) : option Series :=
  match provider t start_date end_date with
  | History df => if (0 <? length df)%nat then Some df else None
  | ProviderError => None
  end.



(** The requested tickers other than the benchmark. *)
Definition portfolio_tickers (tickers : list ticker) (benchmark : ticker)
    : list ticker :=
  filter (fun t => negb (String.eqb t benchmark)) tickers.

(** All cells of a row are finite. *)
Definition is_num (x : npfloat) : bool :=
  match x with
  | Num _ => true
  | NaN => false
  end.

(** Every row of a frame has one cell per column. *)
Definition rectangular {C : Type} (k : nat) (rs : list (date * list C)) : Prop :=
  Forall (fun row => length (snd row) = k) rs.

(** Column [j] has a value in the carried row or in some row still to
    come. *)
Definition seen (k : nat) (prev : list npfloat)
    (rs : list (date * list npfloat)) : Prop :=
  forall j, (j < k)%nat ->
    is_num (nth j prev NaN) = true \/
    exists row, In row rs /\ is_num (nth j (snd row) NaN) = true.

(** Column [j] is quoted on some date of [ds] not later than [d], or has a
    carried value. *)
Definition quoted_by (vals : list Series) (prev : list npfloat)
    (ds : list date) (d : date) : Prop :=
  forall j, (j < length vals)%nat ->
    is_num (nth j prev NaN) = true \/
    exists d', In d' ds /\ (d' <= d)%nat /\ In d' (index (nth j vals [])).

(** Sample providers.  [demo]: two instruments and the benchmark over the
    same three days.  [disjoint]: the histories of the two instruments
    share no date.  [one_day]: two instruments quoted on one day each. *)
Definition demo : Provider := fun t _ _ =>
  if String.eqb t "AAA"
  then History [(1%nat, 100); (2%nat, 110); (3%nat, 121)]
  else if String.eqb t "BBB"
  then History [(1%nat, 50); (2%nat, 50); (3%nat, 55)]
  else if String.eqb t "SPY"
  then History [(1%nat, 400); (2%nat, 404); (3%nat, 408)]
  else ProviderError.

Definition disjoint : Provider := fun t _ _ =>
  if String.eqb t "AAA"
  then History [(1%nat, 100); (2%nat, 110); (3%nat, 121)]
  else if String.eqb t "BBB"
  then History [(4%nat, 50); (5%nat, 55); (6%nat, 66)]
  else ProviderError.

Definition one_day : Provider := fun t _ _ =>
  if String.eqb t "AAA" then History [(1%nat, 100)]
  else if String.eqb t "BBB" then History [(2%nat, 50)]
  else ProviderError.

(** [three_day]: one instrument whose closes rise by 1%, fall by 2% and
    rise by 3%. *)
Definition three_day : Provider := fun t _ _ =>
  if String.eqb t "AAA"
  then History [(1%nat, 100); (2%nat, 101); (3%nat, 98.98); (4%nat, 101.9494)]
  else ProviderError.

Definition fresh (capital : R) : PortfolioBacktester :=
  mkBacktester capital EmptyDict.

(** * Properties *)

(** ** Dictionaries *)

Lemma get_set_other {V : Type} (k k' : string) (v : V) (d : Dict.t V) :
  k <> k' -> Dict.get k (Dict.set k' v d) = Dict.get k d.
Proof.
  intros Hne. induction d as [|[k0 v0] tl IH]; simpl.
  - destruct (String.eqb_spec k k'); [contradiction | reflexivity].
  - destruct (String.eqb_spec k' k0) as [->|Hk0]; simpl.
    + destruct (String.eqb_spec k k0); [contradiction | reflexivity].
    + destruct (String.eqb_spec k k0); [reflexivity | exact IH].
Qed.

Lemma get_remove_self {V : Type} (k : string) (d : Dict.t V) :
  Dict.get k (Dict.remove k d) = None.
Proof.
  induction d as [|[k0 v0] tl IH]; simpl; [reflexivity|].
  destruct (String.eqb_spec k k0) as [->|Hne]; [exact IH|].
  simpl. destruct (String.eqb_spec k k0); [contradiction | exact IH].
Qed.

Lemma keys_remove_not_in {V : Type} (k : string) (d : Dict.t V) :
  ~ In k (Dict.keys (Dict.remove k d)).
Proof.
  induction d as [|[k0 v0] tl IH]; simpl; [tauto|].
  destruct (String.eqb_spec k k0) as [->|Hne]; [exact IH|].
  simpl. intros [Heq | Hin]; [congruence | contradiction].
Qed.

(** ** The metric computation *)

(** The benchmark block only adds its own four keys. *)
Lemma benchmark_metrics_get (k : string) returns total bench (m : Metrics) :
  k <> "alpha" -> k <> "information_ratio" -> k <> "tracking_error" ->
  k <> "correlation_to_benchmark" ->
  Dict.get k (benchmark_metrics returns total bench m) = Dict.get k m.
Proof.
  intros H1 H2 H3 H4. unfold benchmark_metrics.
  destruct bench as [b|]; [|reflexivity].
  destruct (0 <? length b)%nat; [|reflexivity].
  destruct (0 <? length (fst (align_inner returns b)))%nat; [|reflexivity].
  now rewrite !get_set_other.
Qed.


Lemma std_short (l : list R) : (length l < 2)%nat -> std l = NaN.
Proof.
  intros Hlen. unfold std. destruct (Nat.ltb_spec (length l) 2); [reflexivity | lia].
Qed.

Lemma values_length (s : Series) : length (values s) = length s.
Proof. apply length_map. Qed.

(** C9: on the empty return series the metric computation does not return
    a MetricSet with [win_rate = 0]: the division [252 / len(returns)] of the
    annualized-return exponent raises [ZeroDivisionError] before [win_rate]
    is reached, whatever the benchmark series. *)
Theorem empty_returns_raise (benchmark_returns : option Series) :
  calculate_performance_metrics [] benchmark_returns = Raises ZeroDivisionError.
Proof. reflexivity. Qed.

(** C8 (as stated, refuted): for the one-element series [[0.01]] the metric
    computation does not return [volatility = 0]. *)
Lemma single_observation_volatility_not_zero :
  ~ exists m,
      calculate_performance_metrics [(1%nat, 0.01)] None = Returns m /\
      Dict.get "volatility" m = Some (Num 0).
Proof.
  intros [m [Hrun Hget]].
  unfold calculate_performance_metrics in Hrun. cbn [length] in Hrun.
  injection Hrun as <-.
  cbn in Hget. discriminate.
Qed.

(** C8 (amended): for every one-element return series the metric
    computation returns a MetricSet whose [volatility] is NaN, the sample
    standard deviation (ddof = 1) of a single observation being undefined
    and left unguarded, and whose [sharpe_ratio] is 0, the comparison
    [volatility > 0] being false on NaN. *)
Theorem single_observation_volatility_nan
    (d : date) (r : R) (benchmark_returns : option Series) :
  exists m,
    calculate_performance_metrics [(d, r)] benchmark_returns = Returns m /\
    Dict.get "volatility" m = Some NaN /\
    Dict.get "sharpe_ratio" m = Some (Num 0).
Proof.
  unfold calculate_performance_metrics. cbn [length].
  eexists. split; [reflexivity|].
  rewrite !benchmark_metrics_get by discriminate.
  rewrite std_short by (simpl; lia).
  split; reflexivity.
Qed.




(** ** Compounding *)

Lemma cumprod_from_length (l : list R) (acc : R) :
  length (cumprod_from acc l) = length l.
Proof.
  revert acc. induction l as [|x tl IH]; intros acc; simpl; [reflexivity|].
  now rewrite IH.
Qed.

(** Entry [t] of the running product is the product of the first [t+1]
    factors. *)
Lemma cumprod_from_nth (l : list R) (acc : R) (t : nat) :
  (t < length l)%nat ->
  nth t (cumprod_from acc l) 0 = acc * prod (firstn (S t) l).
Proof.
  revert acc t. induction l as [|x tl IH]; intros acc t Ht.
  - simpl in Ht. lia.
  - destruct t as [|t].
    + simpl. destruct tl; simpl; lra.
    + cbn [cumprod_from nth]. rewrite IH by (simpl in Ht; lia).
      change (firstn (S (S t)) (x :: tl)) with (x :: firstn (S t) tl).
      change (prod (x :: firstn (S t) tl)) with (x * prod (firstn (S t) tl)).
      ring.
Qed.

Lemma map_fst_combine {A B : Type} (l1 : list A) (l2 : list B) :
  length l1 = length l2 -> map fst (combine l1 l2) = l1.
Proof.
  revert l2. induction l1 as [|a tl IH]; intros [|b l2] Hlen;
    simpl in *; try reflexivity; try discriminate.
  f_equal. apply IH. lia.
Qed.

Lemma map_snd_combine {A B : Type} (l1 : list A) (l2 : list B) :
  length l1 = length l2 -> map snd (combine l1 l2) = l2.
Proof.
  revert l2. induction l1 as [|a tl IH]; intros [|b l2] Hlen;
    simpl in *; try reflexivity; try discriminate.
  f_equal. apply IH. lia.
Qed.

Lemma index_with_values (s : Series) (vs : list R) :
  length vs = length s -> index (with_values s vs) = index s.
Proof.
  intros Hlen. unfold with_values, index.
  rewrite map_fst_combine; [reflexivity|]. now rewrite length_map.
Qed.

Lemma values_with_values (s : Series) (vs : list R) :
  length vs = length s -> values (with_values s vs) = vs.
Proof.
  intros Hlen. unfold with_values, values, index.
  rewrite map_snd_combine; [reflexivity|]. now rewrite length_map.
Qed.

Lemma compound_scaled_length (capital : R) (s : Series) :
  length (map (Rmult capital) (cumprod (one_plus (values s)))) = length s.
Proof.
  unfold cumprod, one_plus, values.
  now rewrite length_map, cumprod_from_length, !length_map.
Qed.

Lemma compound_compounds_daily (capital : R) (s : Series) :
  compounds_daily capital s (compound capital s).
Proof.
  unfold compounds_daily, compound. split.
  - apply index_with_values, compound_scaled_length.
  - intros t Ht. rewrite values_with_values by apply compound_scaled_length.
    assert (Hlen : (t < length (cumprod (one_plus (values s))))%nat).
    { unfold cumprod, one_plus, values.
      now rewrite cumprod_from_length, !length_map. }
    rewrite (nth_indep _ 0 (capital * 0))
      by (now rewrite length_map).
    rewrite map_nth. unfold cumprod.
    rewrite cumprod_from_nth
      by (unfold one_plus, values; now rewrite !length_map).
    ring.
Qed.

(** What a completed backtest stores in its result. *)
Lemma finish_backtest_inv self bench prices returns weights pr sd ed self' res :
  finish_backtest self bench prices returns weights pr sd ed
    = Returns (self', Results res) ->
  portfolio_returns res = pr /\
  portfolio_value res = compound (initial_capital self) pr /\
  portfolio_weights res = weights /\
  tickers res = columns prices /\
  correlation_matrix res = corr returns /\
  trading_days res = length (rows prices) /\
  calculate_performance_metrics pr (option_map calculate_returns bench)
    = Returns (portfolio_metrics res) /\
  individual_loop returns (columns prices) []
    = Returns (individual_metrics res) /\
  iloc_last (compound (initial_capital self) pr) = Returns (final_value res) /\
  self' = mkBacktester (initial_capital self) (Results res).
Proof.
  unfold finish_backtest. intros H.
  destruct (calculate_performance_metrics pr _) as [m|e]; [|discriminate].
  destruct (individual_loop returns _ _) as [im|e]; [|discriminate].
  destruct (iloc_last _) as [fv|e]; [|discriminate].
  cbn [bind] in H. injection H as <- <-. cbn. repeat split; reflexivity.
Qed.

(** ** Alignment: union index, forward fill, dropna *)

Lemma insert_date_in (d x : date) (l : list date) :
  In x (insert_date d l) <-> x = d \/ In x l.
Proof.
  induction l as [|y tl IH]; simpl.
  - intuition.
  - destruct (d <? y)%nat.
    + simpl. intuition.
    + destruct (Nat.eqb_spec d y) as [->|Hne]; simpl.
      * intuition.
      * rewrite IH. intuition.
Qed.

Lemma fold_insert_date_in (ds acc : list date) (x : date) :
  In x (fold_right insert_date acc ds) <-> In x ds \/ In x acc.
Proof.
  induction ds as [|d tl IH]; simpl.
  - intuition.
  - rewrite insert_date_in, IH. intuition.
Qed.

Lemma union_index_in (cols : list Series) (s : Series) (d : date) :
  In s cols -> In d (index s) -> In d (union_index cols).
Proof.
  induction cols as [|c tl IH]; intros Hs Hd; [contradiction|].
  cbn [union_index fold_right]. apply fold_insert_date_in.
  destruct Hs as [->|Hs]; [now left | right; now apply IH].
Qed.

Lemma series_at_in (d : date) (s : Series) :
  In d (index s) -> is_num (series_at d s) = true.
Proof.
  induction s as [|[d' v] tl IH]; intros Hin; [contradiction|].
  simpl. destruct (Nat.eqb_spec d d') as [->|Hne]; [reflexivity|].
  apply IH. destruct Hin as [Heq|Hin]; [simpl in Heq; congruence | exact Hin].
Qed.

Lemma nth_tl (l : list npfloat) (j : nat) :
  nth j (tl l) NaN = nth (S j) l NaN.
Proof. destruct l; [destruct j|]; reflexivity. Qed.

Lemma fill_row_length (prev cur : list npfloat) :
  length (fill_row prev cur) = length cur.
Proof.
  revert prev. induction cur as [|c cs IH]; intros prev; simpl; [reflexivity|].
  now rewrite IH.
Qed.

(** A filled cell is present when the cell itself or the cell above is. *)
Lemma fill_row_nth (cur prev : list npfloat) (j : nat) :
  (j < length cur)%nat ->
  is_num (nth j (fill_row prev cur) NaN)
    = is_num (nth j cur NaN) || is_num (nth j prev NaN).
Proof.
  revert prev j. induction cur as [|c cs IH]; intros prev j Hj.
  - simpl in Hj. lia.
  - destruct j as [|j].
    + simpl. destruct c; [reflexivity|]. destruct prev; reflexivity.
    + cbn [fill_row nth]. rewrite IH by (simpl in Hj; lia).
      now rewrite nth_tl.
Qed.

Lemma all_num_complete (l : list npfloat) :
  (forall j, (j < length l)%nat -> is_num (nth j l NaN) = true) ->
  exists l', all_num l = Some l'.
Proof.
  induction l as [|x tl IH]; intros Hall.
  - now exists [].
  - assert (Hx := Hall O ltac:(simpl; lia)). simpl in Hx.
    destruct x as [r|]; [|discriminate].
    destruct IH as [l' Hl'].
    { intros j Hj. apply (Hall (S j)). simpl. lia. }
    exists (r :: l'). simpl. now rewrite Hl'.
Qed.

Lemma all_num_length (l : list npfloat) (l' : list R) :
  all_num l = Some l' -> length l' = length l.
Proof.
  revert l'. induction l as [|x tl IH]; intros l' H.
  - injection H as <-. reflexivity.
  - destruct x as [r|]; [|discriminate]. simpl in H.
    destruct (all_num tl) as [t'|]; [|discriminate].
    injection H as <-. simpl. now rewrite (IH t').
Qed.

(** After forward filling, the last row is complete as soon as every column
    has a value somewhere: [dropna] keeps at least that row. *)
Lemma ffill_dropna_nonempty (k : nat) (rs : list (date * list npfloat)) :
  forall prev, rs <> [] -> rectangular k rs -> seen k prev rs ->
  dropna_rows (ffill_from prev rs) <> [].
Proof.
  induction rs as [|[d r] tl IH]; intros prev Hne Hrect Hseen;
    [contradiction|].
  apply Forall_cons_iff in Hrect as [Hr Htl]. cbn [snd] in Hr.
  cbn [ffill_from dropna_rows].
  destruct (all_num (fill_row prev r)) as [r'|] eqn:Hnum; [discriminate|].
  destruct tl as [|row2 tl2].
  - exfalso. destruct (all_num_complete (fill_row prev r)) as [l' Hl'];
      [|congruence].
    intros j Hj. rewrite fill_row_length in Hj.
    rewrite fill_row_nth by exact Hj. rewrite Hr in Hj.
    destruct (Hseen j Hj) as [Hp | [row [Hin Hrow]]].
    + rewrite Hp. apply orb_true_r.
    + destruct Hin as [<-|[]]. cbn [snd] in Hrow. now rewrite Hrow.
  - apply IH; [discriminate | exact Htl |].
    intros j Hj. rewrite fill_row_nth by (rewrite Hr; exact Hj).
    destruct (Hseen j Hj) as [Hp | [row [Hin Hrow]]].
    + left. rewrite Hp. apply orb_true_r.
    + destruct Hin as [<-|Hin].
      * left. cbn [snd] in Hrow. now rewrite Hrow.
      * right. now exists row.
Qed.

Lemma make_frame_rectangular (data : Dict.t Series) :
  rectangular (length data) (rows (make_frame data)).
Proof.
  unfold rectangular, make_frame. cbn [rows].
  apply Forall_forall. intros row Hin.
  apply in_map_iff in Hin as [d [<- _]]. cbn [snd].
  unfold Dict.vals. now rewrite !length_map.
Qed.

Lemma make_frame_seen (data : Dict.t Series) :
  Forall (fun s => s <> []) (Dict.vals data) ->
  seen (length data) [] (rows (make_frame data)).
Proof.
  intros Hne j Hj. right.
  assert (Hjv : (j < length (Dict.vals data))%nat)
    by (unfold Dict.vals; now rewrite length_map).
  pose proof (nth_In (Dict.vals data) [] Hjv) as Hin.
  rewrite Forall_forall in Hne. specialize (Hne _ Hin).
  destruct (nth j (Dict.vals data) []) as [|[d0 v0] rest] eqn:Hs;
    [contradiction|].
  exists (d0, map (series_at d0) (Dict.vals data)). split.
  - unfold make_frame. cbn [rows]. apply in_map_iff. exists d0. split; [reflexivity|].
    apply (union_index_in _ ((d0, v0) :: rest)); [exact Hin | now left].
  - cbn [snd].
    change NaN with (series_at d0 []). rewrite map_nth, Hs.
    apply series_at_in. now left.
Qed.

Lemma make_frame_rows_nonempty (data : Dict.t Series) :
  data <> [] -> Forall (fun s => s <> []) (Dict.vals data) ->
  rows (make_frame data) <> [].
Proof.
  intros Hd Hne. destruct data as [|[k0 s0] tl]; [contradiction|].
  apply Forall_cons_iff in Hne as [Hs0 _]. cbn [snd] in Hs0.
  destruct s0 as [|[d0 v0] rest]; [contradiction|].
  unfold make_frame. cbn [rows]. intros Hnil. apply map_eq_nil in Hnil.
  match type of Hnil with
  | ?l = [] => assert (Hin : In d0 l)
  end.
  { apply (union_index_in _ ((d0, v0) :: rest)); now left. }
  rewrite Hnil in Hin. contradiction.
Qed.

(** The aligned price matrix is empty only when no instrument has data:
    with one non-empty history per column, forward fill and dropna always
    leave at least the last date. *)
Lemma aligned_prices_empty_iff (data : Dict.t Series) :
  Forall (fun s => s <> []) (Dict.vals data) ->
  frame_empty (dropna (ffill (make_frame data))) = true <-> data = [].
Proof.
  intros Hne. split.
  - intros Hempty. destruct data as [|e tl] eqn:Hd; [reflexivity|].
    exfalso. unfold frame_empty in Hempty. cbn [dropna ffill rows columns] in Hempty.
    apply orb_true_iff in Hempty as [Hrows | Hcols].
    + apply Nat.eqb_eq, length_zero_iff_nil in Hrows. revert Hrows.
      apply (ffill_dropna_nonempty (length (e :: tl))).
      * apply make_frame_rows_nonempty; [discriminate | exact Hne].
      * apply make_frame_rectangular.
      * now apply make_frame_seen.
    + simpl in Hcols. discriminate.
  - intros ->. reflexivity.
Qed.

(** ** Acquisition *)

Lemma keys_set_in {V : Type} (k k' : string) (v : V) (d : Dict.t V) :
  In k (Dict.keys (Dict.set k' v d)) <-> k = k' \/ In k (Dict.keys d).
Proof.
  induction d as [|[k0 v0] tl IH]; simpl.
  - intuition.
  - destruct (String.eqb_spec k' k0) as [->|Hne]; simpl.
    + intuition.
    + unfold Dict.keys in IH. rewrite IH. intuition.
Qed.

Lemma keys_set_nodup {V : Type} (k : string) (v : V) (d : Dict.t V) :
  NoDup (Dict.keys d) -> NoDup (Dict.keys (Dict.set k v d)).
Proof.
  induction d as [|[k0 v0] tl IH]; simpl; intros Hnd.
  - constructor; [tauto | constructor].
  - destruct (String.eqb_spec k k0) as [->|Hne]; simpl; [exact Hnd|].
    inversion Hnd as [|? ? Hnotin Htl]; subst.
    constructor; [|now apply IH].
    intros Hin. apply (keys_set_in k0 k v tl) in Hin as [Heq|Hin];
      [congruence | contradiction].
Qed.

Lemma vals_set_forall {V : Type} (P : V -> Prop) (k : string) (v : V)
    (d : Dict.t V) :
  P v -> Forall P (Dict.vals d) -> Forall P (Dict.vals (Dict.set k v d)).
Proof.
  intros Hv. induction d as [|[k0 v0] tl IH]; simpl; intros Hall.
  - now constructor.
  - inversion Hall; subst.
    destruct (String.eqb k k0); simpl; constructor; auto.
Qed.

Lemma keys_remove_in {V : Type} (k b : string) (d : Dict.t V) :
  In k (Dict.keys (Dict.remove b d)) <-> In k (Dict.keys d) /\ k <> b.
Proof.
  induction d as [|[k0 v0] tl IH]; simpl.
  - intuition.
  - destruct (String.eqb_spec b k0) as [->|Hne]; simpl.
    + unfold Dict.keys in IH. rewrite IH. intuition congruence.
    + unfold Dict.keys in IH. rewrite IH. intuition congruence.
Qed.

Lemma keys_remove_nodup {V : Type} (b : string) (d : Dict.t V) :
  NoDup (Dict.keys d) -> NoDup (Dict.keys (Dict.remove b d)).
Proof.
  induction d as [|[k0 v0] tl IH]; simpl; intros Hnd; [constructor|].
  inversion Hnd as [|? ? Hnotin Htl]; subst.
  destruct (String.eqb b k0); simpl; [now apply IH|].
  constructor; [|now apply IH].
  intros Hin. apply (keys_remove_in k0 b tl) in Hin as [Hin _]. contradiction.
Qed.

Lemma vals_remove_forall {V : Type} (P : V -> Prop) (b : string) (d : Dict.t V) :
  Forall P (Dict.vals d) -> Forall P (Dict.vals (Dict.remove b d)).
Proof.
  induction d as [|[k0 v0] tl IH]; simpl; intros Hall; [constructor|].
  inversion Hall; subst.
  destruct (String.eqb b k0); simpl; [auto | constructor; auto].
Qed.

Lemma remove_set_same {V : Type} (b : string) (v : V) (d : Dict.t V) :
  Dict.remove b (Dict.set b v d) = Dict.remove b d.
Proof.
  induction d as [|[k0 v0] tl IH]; simpl.
  - now rewrite String.eqb_refl.
  - destruct (String.eqb_spec b k0) as [->|Hne]; simpl.
    + now rewrite String.eqb_refl.
    + destruct (String.eqb_spec b k0); [contradiction|]. now rewrite IH.
Qed.

Lemma remove_set_other {V : Type} (b k : string) (v : V) (d : Dict.t V) :
  k <> b -> Dict.remove b (Dict.set k v d) = Dict.set k v (Dict.remove b d).
Proof.
  intros Hkb. induction d as [|[k0 v0] tl IH]; simpl.
  - destruct (String.eqb_spec b k); [congruence | reflexivity].
  - destruct (String.eqb_spec k k0) as [->|Hne]; simpl.
    + destruct (String.eqb_spec b k0); [congruence|].
      simpl. now rewrite String.eqb_refl.
    + destruct (String.eqb_spec b k0) as [->|Hb]; [exact IH|].
      simpl. destruct (String.eqb_spec k k0); [contradiction|]. now rewrite IH.
Qed.

Section Acquisition.
Variable provider : Provider.
Variables start_date end_date : string.

Lemma fetch_loop_keys_in (ts : list ticker) (d : Dict.t Series) (k : string) :
  In k (Dict.keys (fetch_loop provider start_date end_date ts d)) <->
  In k (Dict.keys d) \/
  (In k ts /\ has_data provider start_date end_date k = true).
Proof.
  revert d. induction ts as [|t tl IH]; intros d.
  - simpl. intuition.
  - cbn [fetch_loop]. unfold has_data in *.
    destruct (provider t start_date end_date) as [df|] eqn:Hp.
    + destruct (0 <? length df)%nat eqn:Hlen.
      * rewrite IH, keys_set_in. simpl. split.
        -- intros [[->|Hin]|[Hin Hd]]; auto.
           right. split; [now left|]. now rewrite Hp.
        -- intros [Hin|[[->|Hin] Hd]]; auto.
      * rewrite IH. simpl. split.
        -- intros [Hin|[Hin Hd]]; auto.
        -- intros [Hin|[[<-|Hin] Hd]]; auto.
           rewrite Hp in Hd. congruence.
    + rewrite IH. simpl. split.
      * intros [Hin|[Hin Hd]]; auto.
      * intros [Hin|[[<-|Hin] Hd]]; auto.
        rewrite Hp in Hd. discriminate.
Qed.

Lemma fetch_loop_nodup (ts : list ticker) (d : Dict.t Series) :
  NoDup (Dict.keys d) ->
  NoDup (Dict.keys (fetch_loop provider start_date end_date ts d)).
Proof.
  revert d. induction ts as [|t tl IH]; intros d Hnd; [exact Hnd|].
  cbn [fetch_loop].
  destruct (provider t start_date end_date) as [df|]; [|now apply IH].
  destruct (0 <? length df)%nat; [|now apply IH].
  apply IH. now apply keys_set_nodup.
Qed.

Lemma fetch_loop_nonempty (ts : list ticker) (d : Dict.t Series) :
  Forall (fun s => s <> []) (Dict.vals d) ->
  Forall (fun s => s <> [])
         (Dict.vals (fetch_loop provider start_date end_date ts d)).
Proof.
  revert d. induction ts as [|t tl IH]; intros d Hall; [exact Hall|].
  cbn [fetch_loop].
  destruct (provider t start_date end_date) as [df|]; [|now apply IH].
  destruct (0 <? length df)%nat eqn:Hlen; [|now apply IH].
  apply IH. apply vals_set_forall; [|exact Hall].
  intros ->. simpl in Hlen. discriminate.
Qed.

(** Popping the benchmark after the fetch amounts to never fetching it
    into the dictionary. *)
Lemma remove_fetch_loop (b : ticker) (ts : list ticker) (d : Dict.t Series) :
  Dict.remove b (fetch_loop provider start_date end_date ts d)
  = fetch_loop provider start_date end_date (portfolio_tickers ts b)
      (Dict.remove b d).
Proof.
  revert d. induction ts as [|t tl IH]; intros d; [reflexivity|].
  cbn [fetch_loop portfolio_tickers filter].
  destruct (String.eqb_spec t b) as [->|Hne]; cbn [negb].
  - destruct (provider b start_date end_date) as [df|]; [|apply IH].
    destruct (0 <? length df)%nat; [|apply IH].
    fold (portfolio_tickers tl b). rewrite IH. now rewrite remove_set_same.
  - cbn [fetch_loop]. fold (portfolio_tickers tl b).
    destruct (provider t start_date end_date) as [df|]; [|apply IH].
    destruct (0 <? length df)%nat; [|apply IH].
    rewrite IH. now rewrite remove_set_other.
Qed.
End Acquisition.


Lemma portfolio_tickers_in (ts : list ticker) (b t : ticker) :
  In t (portfolio_tickers ts b) <-> In t ts /\ t <> b.
Proof.
  unfold portfolio_tickers. rewrite filter_In.
  destruct (String.eqb_spec t b); simpl; intuition congruence.
Qed.

Lemma portfolio_tickers_app_benchmark (ts : list ticker) (b : ticker) :
  portfolio_tickers (ts ++ [b]) b = portfolio_tickers ts b.
Proof.
  unfold portfolio_tickers. rewrite filter_app. simpl.
  rewrite String.eqb_refl. simpl. apply app_nil_r.
Qed.

(** The price matrix of a backtest is built from the histories of the
    requested tickers other than the benchmark. *)
Lemma load_prices_prices (p : Provider) (ts : list ticker) (sd ed : string)
    (b : ticker) :
  snd (load_prices p ts sd ed b)
  = dropna (ffill (make_frame
      (fetch_loop p sd ed (portfolio_tickers ts b) []))).
Proof.
  unfold load_prices, fetch_historical_data, Dict.pop. cbn [snd].
  now rewrite remove_fetch_loop, portfolio_tickers_app_benchmark.
Qed.

Lemma load_prices_columns_in (p : Provider) (ts : list ticker) (sd ed : string)
    (b t : ticker) :
  In t (columns (snd (load_prices p ts sd ed b))) <->
  In t ts /\ t <> b /\ has_data p sd ed t = true.
Proof.
  rewrite load_prices_prices. cbn [dropna ffill make_frame columns].
  rewrite fetch_loop_keys_in, portfolio_tickers_in. simpl. tauto.
Qed.

Lemma load_prices_columns_nodup (p : Provider) (ts : list ticker)
    (sd ed : string) (b : ticker) :
  NoDup (columns (snd (load_prices p ts sd ed b))).
Proof.
  rewrite load_prices_prices. cbn [dropna ffill make_frame columns].
  apply fetch_loop_nodup. constructor.
Qed.

(** The "no overlapping data" branch is taken exactly when no requested
    ticker other than the benchmark has data. *)
Lemma load_prices_empty_iff (p : Provider) (ts : list ticker) (sd ed : string)
    (b : ticker) :
  frame_empty (snd (load_prices p ts sd ed b)) = true <->
  (forall t, In t ts -> t <> b -> has_data p sd ed t = false).
Proof.
  rewrite load_prices_prices.
  rewrite aligned_prices_empty_iff by (apply fetch_loop_nonempty; constructor).
  split.
  - intros Hnil t Hin Hne.
    destruct (has_data p sd ed t) eqn:Hd; [|reflexivity].
    assert (Hk : In t (Dict.keys (fetch_loop p sd ed (portfolio_tickers ts b) []))).
    { apply fetch_loop_keys_in. right. now rewrite portfolio_tickers_in. }
    rewrite Hnil in Hk. contradiction.
  - intros Hnone.
    destruct (fetch_loop p sd ed (portfolio_tickers ts b) []) as [|[k v] tl] eqn:Hf;
      [reflexivity|].
    assert (Hk : In k (Dict.keys (fetch_loop p sd ed (portfolio_tickers ts b) [])))
      by (rewrite Hf; now left).
    apply fetch_loop_keys_in in Hk as [[]|[Hin Hd]].
    apply portfolio_tickers_in in Hin as [Hin Hne].
    rewrite (Hnone k Hin Hne) in Hd. discriminate.
Qed.

(** ** Weight validation *)

Lemma divide_weights_returns (w : Dict.t R) (s : R) :
  s <> 0 ->
  divide_weights w s = Returns (map (fun kv => (fst kv, snd kv / s)) w).
Proof.
  intros Hs. induction w as [|[k v] tl IH]; [reflexivity|].
  cbn [divide_weights]. unfold py_truediv.
  destruct (Req_dec_T s 0); [contradiction|].
  cbn [bind]. rewrite IH. reflexivity.
Qed.

Lemma divide_weights_zero (k : string) (v : R) (tl : Dict.t R) :
  divide_weights ((k, v) :: tl) 0 = Raises ZeroDivisionError.
Proof.
  cbn [divide_weights]. unfold py_truediv.
  destruct (Req_dec_T 0 0); [reflexivity | contradiction].
Qed.



Lemma validate_weights_unchanged (w : Dict.t R) :
  Rabs (sum (Dict.vals w) - 1) <= 0.01 -> validate_weights w = Returns w.
Proof.
  intros Hle. unfold validate_weights.
  destruct (Rlt_dec 0.01 (Rabs (sum (Dict.vals w) - 1))); [lra | reflexivity].
Qed.

Lemma validate_weights_normalized (w : Dict.t R) :
  Rabs (sum (Dict.vals w) - 1) > 0.01 -> sum (Dict.vals w) <> 0 ->
  validate_weights w
  = Returns (map (fun kv => (fst kv, snd kv / sum (Dict.vals w))) w).
Proof.
  intros Hgt Hs. unfold validate_weights.
  destruct (Rlt_dec 0.01 (Rabs (sum (Dict.vals w) - 1))); [|lra].
  now apply divide_weights_returns.
Qed.




(** ** Sample runs *)

Lemma pct_cell_nonzero (p prev : R) :
  prev <> 0 -> pct_cell p prev = Num (p / prev - 1).
Proof.
  intros Hne. unfold pct_cell. simpl.
  destruct (Req_dec_T prev 0); [contradiction | reflexivity].
Qed.

(** Evaluation of a backtest on explicit price histories. *)
Ltac evaluate :=
  repeat (progress (cbn; rewrite ?pct_cell_nonzero by lra)).

Lemma demo_equal_run :
  exists self' res,
    backtest_equal_weight_portfolio demo (fresh 100000) ["AAA"; "BBB"]
      "2024-01-01" "2024-01-04" "SPY" = Returns (self', Results res).
Proof.
  unfold backtest_equal_weight_portfolio. evaluate.
  eexists. eexists. reflexivity.
Qed.

Lemma demo_weights_valid :
  validate_weights [("AAA", 0.6); ("BBB", 0.4)]
  = Returns [("AAA", 0.6); ("BBB", 0.4)].
Proof.
  apply validate_weights_unchanged. simpl.
  unfold Rabs. destruct (Rcase_abs (0.6 + (0.4 + 0) - 1)); lra.
Qed.

Lemma demo_weighted_run :
  exists self' res,
    backtest_weighted_portfolio demo (fresh 100000)
      [("AAA", 0.6); ("BBB", 0.4)] "2024-01-01" "2024-01-04" "SPY"
    = Returns (self', Results res).
Proof.
  unfold backtest_weighted_portfolio. rewrite demo_weights_valid.
  cbn [bind]. evaluate.
  eexists. eexists. reflexivity.
Qed.

(** A ticker without data is dropped and the run goes on. *)
Lemma demo_partial_run :
  exists self' res,
    backtest_equal_weight_portfolio demo (fresh 100000) ["AAA"; "CCC"]
      "2024-01-01" "2024-01-04" "SPY" = Returns (self', Results res) /\
    tickers res = ["AAA"].
Proof.
  unfold backtest_equal_weight_portfolio. evaluate.
  eexists. eexists. split; reflexivity.
Qed.

(** Two one-day histories on different days: one aligned row, no return,
    and the metric computation faults. *)
Lemma one_day_run_raises :
  backtest_equal_weight_portfolio one_day (fresh 100000) ["AAA"; "BBB"]
    "2024-01-01" "2024-01-04" "SPY" = Raises ZeroDivisionError.
Proof. reflexivity. Qed.

(** ** Histories without a common date *)

(** C2 (evaluated at the failing input): for two tickers whose histories
    cover days 1-3 and days 4-6, the equal-weight backtest does not return
    the empty result.  It returns a populated result over the three days of
    the later ticker, on which the earlier ticker carries its forward-filled
    last price and so a return of 0: the portfolio returns are half the
    later ticker's returns. *)
Theorem disjoint_histories_not_rejected :
  exists self' res,
    backtest_equal_weight_portfolio disjoint (fresh 100000) ["AAA"; "BBB"]
      "2024-01-01" "2024-01-07" "SPY" = Returns (self', Results res) /\
    tickers res = ["AAA"; "BBB"] /\
    trading_days res = 3%nat /\
    column (dropna (pct_change (snd (load_prices disjoint ["AAA"; "BBB"]
              "2024-01-01" "2024-01-07" "SPY")))) "AAA"
      = [(5%nat, 0); (6%nat, 0)] /\
    portfolio_returns res = [(5%nat, 0.05); (6%nat, 0.1)].
Proof.
  unfold backtest_equal_weight_portfolio. evaluate.
  eexists. eexists. split; [reflexivity|].
  split; [reflexivity|]. split; [reflexivity|].
  split.
  - unfold column. evaluate.
    f_equal; [f_equal; lra|]. f_equal. f_equal. lra.
  - cbn. unfold mean. cbn.
    f_equal; [f_equal; lra|]. f_equal. f_equal. lra.
Qed.

(** ** Partial coverage *)

(** C6 (as stated, refuted): the provider has no data for the requested
    ticker CCC, and the backtest still returns a populated result, computed
    over AAA alone. *)
Lemma partial_data_not_rejected :
  has_data demo "2024-01-01" "2024-01-04" "CCC" = false /\
  exists self' res,
    backtest_equal_weight_portfolio demo (fresh 100000) ["AAA"; "CCC"]
      "2024-01-01" "2024-01-04" "SPY" = Returns (self', Results res) /\
    tickers res = ["AAA"].
Proof. split; [reflexivity | exact demo_partial_run]. Qed.

(** C6 (amended): a requested ticker for which the provider yields no data
    is left out and the backtest goes on with the others.  The empty result
    is returned exactly when no requested ticker other than the benchmark
    has data; a populated result lists, without repetition, exactly the
    requested tickers other than the benchmark that have data. *)
Theorem missing_tickers_are_dropped
    (provider : Provider) (self : PortfolioBacktester)
    (requested : list ticker) (sd ed : string) (b : ticker) :
  ((forall t, In t requested -> t <> b -> has_data provider sd ed t = false) ->
   backtest_equal_weight_portfolio provider self requested sd ed b
     = Returns (self, EmptyDict)) /\
  (forall self',
     backtest_equal_weight_portfolio provider self requested sd ed b
       = Returns (self', EmptyDict) ->
     forall t, In t requested -> t <> b -> has_data provider sd ed t = false) /\
  (forall self' res,
     backtest_equal_weight_portfolio provider self requested sd ed b
       = Returns (self', Results res) ->
     NoDup (tickers res) /\
     forall t, In t (tickers res) <->
               In t requested /\ t <> b /\ has_data provider sd ed t = true).
Proof.
  unfold backtest_equal_weight_portfolio.
  pose proof (load_prices_empty_iff provider requested sd ed b) as Hempty.
  destruct (frame_empty (snd (load_prices provider requested sd ed b))) eqn:Hfe.
  - split; [reflexivity|]. split.
    + intros _ _. now apply Hempty.
    + discriminate.
  - split; [|split].
    + intros Hnone. apply Hempty in Hnone. discriminate.
    + intros self' Hrun. exfalso. unfold finish_backtest in Hrun.
      destruct (calculate_performance_metrics _ _); [|discriminate].
      destruct (individual_loop _ _ _); [|discriminate].
      destruct (iloc_last _); discriminate.
    + intros self' res Hrun.
      apply finish_backtest_inv in Hrun as [_ [_ [_ [-> _]]]].
      split; [apply load_prices_columns_nodup|].
      intros t. apply load_prices_columns_in.
Qed.

Lemma missing_tickers_are_dropped_witness :
  exists self' res,
    backtest_equal_weight_portfolio demo (fresh 100000) ["AAA"; "CCC"]
      "2024-01-01" "2024-01-04" "SPY" = Returns (self', Results res) /\
    (In "CCC" (tickers res) <->
     In "CCC" ["AAA"; "CCC"] /\ "CCC" <> "SPY" /\
     has_data demo "2024-01-01" "2024-01-04" "CCC" = true).
Proof.
  destruct demo_partial_run as [self' [res [Hrun _]]].
  exists self', res. split; [exact Hrun|].
  apply (proj2 (proj2 (missing_tickers_are_dropped demo (fresh 100000)
           ["AAA"; "CCC"] "2024-01-01" "2024-01-04" "SPY")) self' res Hrun).
Defined.

(** ** Shape of the aligned frames *)

Lemma ffill_from_rectangular (k : nat) (rs : list (date * list npfloat)) :
  forall prev, rectangular k rs -> rectangular k (ffill_from prev rs).
Proof.
  induction rs as [|[d r] tl IH]; intros prev Hrect; [constructor|].
  apply Forall_cons_iff in Hrect as [Hr Htl]. cbn [ffill_from].
  constructor; [cbn [snd] in *; now rewrite fill_row_length | now apply IH].
Qed.

Lemma dropna_rows_rectangular (k : nat) (rs : list (date * list npfloat)) :
  rectangular k rs -> rectangular k (dropna_rows rs).
Proof.
  induction rs as [|[d r] tl IH]; intros Hrect; [constructor|].
  apply Forall_cons_iff in Hrect as [Hr Htl]. cbn [dropna_rows].
  destruct (all_num r) as [r'|] eqn:Hnum; [|now apply IH].
  constructor; [|now apply IH].
  cbn [snd] in *. now rewrite (all_num_length r r').
Qed.

Lemma pct_change_rows_from_rectangular (k : nat) (rs : list (date * list R)) :
  forall prev, length prev = k -> rectangular k rs ->
  rectangular k (pct_change_rows_from prev rs).
Proof.
  induction rs as [|[d r] tl IH]; intros prev Hprev Hrect; [constructor|].
  apply Forall_cons_iff in Hrect as [Hr Htl]. cbn [snd] in Hr.
  cbn [pct_change_rows_from]. constructor; [|now apply IH].
  cbn [snd]. rewrite length_map, length_combine. lia.
Qed.

Lemma pct_change_rows_rectangular (k : nat) (rs : list (date * list R)) :
  rectangular k rs -> rectangular k (pct_change_rows rs).
Proof.
  destruct rs as [|[d r] tl]; intros Hrect; [constructor|].
  apply Forall_cons_iff in Hrect as [Hr Htl]. cbn [snd] in Hr.
  cbn [pct_change_rows]. constructor.
  - cbn [snd]. now rewrite length_map.
  - now apply pct_change_rows_from_rectangular.
Qed.

(** The return matrix of a backtest has one cell per instrument in every
    row. *)
Lemma returns_rectangular (p : Provider) (ts : list ticker) (sd ed : string)
    (b : ticker) :
  rectangular (length (columns (snd (load_prices p ts sd ed b))))
    (rows (dropna (pct_change (snd (load_prices p ts sd ed b))))).
Proof.
  rewrite load_prices_prices. cbn [dropna pct_change ffill columns rows].
  apply dropna_rows_rectangular, pct_change_rows_rectangular,
    dropna_rows_rectangular, ffill_from_rectangular.
  unfold make_frame at 1. cbn [columns]. unfold Dict.keys. rewrite length_map.
  apply make_frame_rectangular.
Qed.

Lemma position_nth (cols : list ticker) (i : nat) (t : ticker) :
  NoDup cols -> nth_error cols i = Some t -> position t cols = Some i.
Proof.
  revert i. induction cols as [|c tl IH]; intros i Hnd Hnth.
  - destruct i; discriminate.
  - inversion Hnd as [|? ? Hnotin Htl]; subst. destruct i as [|i].
    + injection Hnth as ->. simpl. now rewrite String.eqb_refl.
    + cbn [nth_error] in Hnth. simpl.
      destruct (String.eqb_spec t c) as [->|Hne].
      * exfalso. apply Hnotin. eapply nth_error_In. exact Hnth.
      * now rewrite (IH i Htl Hnth).
Qed.

(** ** Per-instrument metrics *)

Lemma get_set_same {V : Type} (k : string) (v : V) (d : Dict.t V) :
  Dict.get k (Dict.set k v d) = Some v.
Proof.
  induction d as [|[k0 v0] tl IH]; simpl.
  - now rewrite String.eqb_refl.
  - destruct (String.eqb_spec k k0) as [->|Hne]; simpl.
    + now rewrite String.eqb_refl.
    + destruct (String.eqb_spec k k0); [contradiction | exact IH].
Qed.

Lemma get_in_keys {V : Type} (k : string) (d : Dict.t V) :
  In k (Dict.keys d) -> exists v, Dict.get k d = Some v.
Proof.
  induction d as [|[k0 v0] tl IH]; intros Hin; [contradiction|].
  simpl. destruct (String.eqb_spec k k0) as [->|Hne]; [now exists v0|].
  apply IH. destruct Hin as [Heq|Hin]; [simpl in Heq; congruence | exact Hin].
Qed.

Lemma individual_loop_keys (returns : Frame R) (cols : list ticker) :
  forall acc im, individual_loop returns cols acc = Returns im ->
  forall t, In t (Dict.keys im) <-> In t cols \/ In t (Dict.keys acc).
Proof.
  induction cols as [|c tl IH]; intros acc im Hrun t.
  - injection Hrun as <-. simpl. tauto.
  - cbn [individual_loop] in Hrun.
    destruct (calculate_performance_metrics (column returns c) None) as [m|e];
      [|discriminate].
    cbn [bind] in Hrun. rewrite (IH _ _ Hrun t), keys_set_in. simpl.
    intuition.
Qed.

(** Every entry written by the loop is the metric computation applied to
    that instrument's own return column. *)
Lemma individual_loop_values (returns : Frame R) (cols : list ticker) :
  forall acc im, individual_loop returns cols acc = Returns im ->
  (forall t m, Dict.get t acc = Some m ->
     calculate_performance_metrics (column returns t) None = Returns m) ->
  forall t m, Dict.get t im = Some m ->
    calculate_performance_metrics (column returns t) None = Returns m.
Proof.
  induction cols as [|c tl IH]; intros acc im Hrun Hacc t m Hget.
  - injection Hrun as <-. now apply Hacc.
  - cbn [individual_loop] in Hrun.
    destruct (calculate_performance_metrics (column returns c) None) as [mc|e]
      eqn:Hc; [|discriminate].
    cbn [bind] in Hrun. apply (IH _ _ Hrun); [|exact Hget].
    intros t' m' Hget'.
    destruct (String.eqb_spec t' c) as [->|Hne].
    + rewrite get_set_same in Hget'. now injection Hget' as <-.
    + rewrite get_set_other in Hget' by exact Hne. now apply Hacc.
Qed.

(** C4: in the equal-weight backtest the portfolio return on every date of
    the aligned return matrix is the sum of the [k] instrument returns of
    that date divided by [k], and the metrics stored for each ticker are the
    single-series metric computation applied to that ticker's own column of
    the return matrix. *)
Theorem equal_weight_is_row_mean
    (provider : Provider) (self : PortfolioBacktester)
    (requested : list ticker) (sd ed : string) (b : ticker)
    (self' : PortfolioBacktester) (res : BacktestResult) :
  backtest_equal_weight_portfolio provider self requested sd ed b
    = Returns (self', Results res) ->
  let returns :=
    dropna (pct_change (snd (load_prices provider requested sd ed b))) in
  let k := length (tickers res) in
  columns returns = tickers res /\
  length (portfolio_returns res) = length (rows returns) /\
  (forall t d row,
     nth_error (rows returns) t = Some (d, row) ->
     length row = k /\
     nth_error (portfolio_returns res) t = Some (d, sum row / INR k)) /\
  (forall i tk,
     nth_error (tickers res) i = Some tk ->
     column returns tk
       = map (fun row => (fst row, nth i (snd row) 0)) (rows returns) /\
     exists m,
       Dict.get tk (individual_metrics res) = Some m /\
       calculate_performance_metrics (column returns tk) None = Returns m).
Proof.
  intros Hrun returns k. subst returns k.
  unfold backtest_equal_weight_portfolio in Hrun.
  destruct (frame_empty _); [discriminate|].
  apply finish_backtest_inv in Hrun
    as [Hpr [_ [_ [Htk [_ [_ [_ [Hind _]]]]]]]].
  rewrite Htk, Hpr. split; [reflexivity|].
  split; [unfold mean_axis1; now rewrite length_map|].
  split.
  - intros t d row Hnth.
    assert (Hlen : length row
                   = length (columns (snd (load_prices provider requested sd ed b)))).
    { pose proof (returns_rectangular provider requested sd ed b) as Hrect.
      unfold rectangular in Hrect. rewrite Forall_forall in Hrect.
      apply (Hrect (d, row)). eapply nth_error_In. exact Hnth. }
    split; [exact Hlen|].
    unfold mean_axis1. rewrite nth_error_map, Hnth. cbn.
    unfold mean. now rewrite Hlen.
  - intros i tk Hnth. split.
    + unfold column. cbn [dropna pct_change columns].
      rewrite (position_nth _ i tk); [reflexivity | | exact Hnth].
      apply load_prices_columns_nodup.
    + destruct (get_in_keys tk (individual_metrics res)) as [m Hm].
      { apply (individual_loop_keys _ _ _ _ Hind). left.
        eapply nth_error_In. exact Hnth. }
      exists m. split; [exact Hm|].
      apply (individual_loop_values _ _ _ _ Hind); [discriminate | exact Hm].
Qed.

Lemma equal_weight_is_row_mean_witness :
  exists self' res,
    backtest_equal_weight_portfolio demo (fresh 100000) ["AAA"; "BBB"]
      "2024-01-01" "2024-01-04" "SPY" = Returns (self', Results res) /\
    length (portfolio_returns res)
    = length (rows (dropna (pct_change (snd (load_prices demo ["AAA"; "BBB"]
                "2024-01-01" "2024-01-04" "SPY"))))).
Proof.
  destruct demo_equal_run as [self' [res Hrun]].
  exists self', res. split; [exact Hrun|].
  apply (equal_weight_is_row_mean demo (fresh 100000) ["AAA"; "BBB"]
           "2024-01-01" "2024-01-04" "SPY" self' res Hrun).
Defined.

(** ** The benchmark *)







Lemma corr_keys (f : Frame R) : Dict.keys (corr f) = columns f.
Proof.
  unfold corr, Dict.keys. rewrite map_map. cbn [fst]. apply map_id.
Qed.








(** ** Completion of a backtest *)

Lemma metrics_total (returns : Series) (bench : option Series) :
  returns <> [] ->
  exists m, calculate_performance_metrics returns bench = Returns m.
Proof.
  intros Hne. destruct returns as [|p tl]; [contradiction|].
  unfold calculate_performance_metrics. cbn [length]. eexists. reflexivity.
Qed.

Lemma position_in (t : ticker) (cols : list ticker) :
  In t cols -> exists j, position t cols = Some j.
Proof.
  induction cols as [|c tl IH]; intros Hin; [contradiction|].
  simpl. destruct (String.eqb_spec t c) as [->|Hne]; [now exists O|].
  destruct IH as [j Hj]; [destruct Hin; congruence|].
  exists (S j). now rewrite Hj.
Qed.

Lemma individual_loop_total (returns : Frame R) (cols : list ticker) :
  rows returns <> [] -> (forall t, In t cols -> In t (columns returns)) ->
  forall acc, exists im, individual_loop returns cols acc = Returns im.
Proof.
  intros Hrows. induction cols as [|c tl IH]; intros Hcols acc.
  - now exists acc.
  - cbn [individual_loop].
    destruct (metrics_total (column returns c) None) as [m Hm].
    { unfold column.
      destruct (position_in c (columns returns)) as [j ->];
        [apply Hcols; now left|].
      intros Hnil. apply map_eq_nil in Hnil. contradiction. }
    rewrite Hm. cbn [bind]. apply IH. intros t Ht. apply Hcols. now right.
Qed.

Lemma iloc_last_total (s : Series) :
  s <> [] -> exists v, iloc_last s = Returns v.
Proof.
  intros Hne. unfold iloc_last.
  destruct (rev s) as [|[d v] tl] eqn:Hrev; [|now exists v].
  apply (f_equal (@rev _)) in Hrev. rewrite rev_involutive in Hrev.
  contradiction.
Qed.

Lemma compound_length (capital : R) (s : Series) :
  length (compound capital s) = length s.
Proof.
  unfold compound, with_values, index.
  rewrite length_combine, length_map, compound_scaled_length. lia.
Qed.

(** A backtest whose return matrix has a row completes with a populated
    result. *)
Lemma finish_backtest_total self bench (prices returns : Frame R) weights pr
    sd ed :
  rows returns <> [] -> length pr = length (rows returns) ->
  columns returns = columns prices ->
  exists self' res,
    finish_backtest self bench prices returns weights pr sd ed
      = Returns (self', Results res).
Proof.
  intros Hrows Hlen Hcols. unfold finish_backtest.
  assert (Hpr : pr <> []).
  { intros ->. apply Hrows. now apply length_zero_iff_nil. }
  destruct (metrics_total pr (option_map calculate_returns bench) Hpr)
    as [m ->].
  destruct (individual_loop_total returns (columns prices) Hrows) with (acc := @nil (string * Metrics))
    as [im ->]; [intros t Ht; now rewrite Hcols|].
  destruct (iloc_last_total (compound (initial_capital self) pr)) as [fv ->].
  { intros Hnil. apply Hpr. apply length_zero_iff_nil.
    now rewrite <- (compound_length (initial_capital self)), Hnil. }
  cbn [bind]. eexists. eexists. reflexivity.
Qed.

Lemma load_prices_not_empty (p : Provider) (ts : list ticker) (sd ed : string)
    (b : ticker) :
  rows (snd (load_prices p ts sd ed b)) <> [] ->
  frame_empty (snd (load_prices p ts sd ed b)) = false.
Proof.
  intros Hrows.
  destruct (frame_empty (snd (load_prices p ts sd ed b))) eqn:Hfe;
    [|reflexivity].
  exfalso. apply Hrows. revert Hfe. rewrite load_prices_prices.
  rewrite aligned_prices_empty_iff by (apply fetch_loop_nonempty; constructor).
  now intros ->.
Qed.

Lemma returns_rows_prices_rows (prices : Frame R) :
  rows (dropna (pct_change prices)) <> [] -> rows prices <> [].
Proof.
  intros Hrows Hnil. apply Hrows. cbn [dropna pct_change rows].
  now rewrite Hnil.
Qed.

Lemma backtest_equal_total (p : Provider) self (ts : list ticker) sd ed b :
  rows (dropna (pct_change (snd (load_prices p ts sd ed b)))) <> [] ->
  exists self' res,
    backtest_equal_weight_portfolio p self ts sd ed b
      = Returns (self', Results res).
Proof.
  intros Hrows. unfold backtest_equal_weight_portfolio.
  rewrite load_prices_not_empty by now apply returns_rows_prices_rows.
  apply finish_backtest_total; [exact Hrows | | reflexivity].
  unfold mean_axis1. now rewrite length_map.
Qed.

Lemma backtest_weighted_total (p : Provider) self (w w' : Dict.t R) sd ed b :
  validate_weights w = Returns w' ->
  rows (dropna (pct_change (snd (load_prices p (Dict.keys w') sd ed b)))) <> [] ->
  exists self' res,
    backtest_weighted_portfolio p self w sd ed b
      = Returns (self', Results res).
Proof.
  intros Hw Hrows. unfold backtest_weighted_portfolio. rewrite Hw. cbn [bind].
  rewrite load_prices_not_empty by now apply returns_rows_prices_rows.
  apply finish_backtest_total; [exact Hrows | | reflexivity].
  unfold weighted_sum. now rewrite length_map.
Qed.

(** * Further properties of the code *)

(** ** Acquisition: what the fetched dictionary holds *)

Lemma fetch_loop_get (p : Provider) (sd ed : string) (t : ticker)
    (ts : list ticker) :
  forall d,
    Dict.get t (fetch_loop p sd ed ts d)
    = if existsb (String.eqb t) ts
      then match history_of p sd ed t with
           | Some df => Some df
           | None => Dict.get t d
           end
      else Dict.get t d.
Proof.
  induction ts as [|c tl IH]; intros d; [reflexivity|].
  cbn [fetch_loop existsb]. unfold history_of in *.
  destruct (String.eqb_spec t c) as [->|Hne]; cbn [orb].
  - destruct (p c sd ed) as [df|] eqn:Hp.
    + destruct (0 <? length df)%nat eqn:Hlen.
      * rewrite IH. destruct (existsb (String.eqb c) tl);
          [reflexivity | apply get_set_same].
      * rewrite IH. destruct (existsb (String.eqb c) tl); reflexivity.
    + rewrite IH. destruct (existsb (String.eqb c) tl); reflexivity.
  - destruct (p c sd ed) as [df|].
    + destruct (0 <? length df)%nat; rewrite IH;
        rewrite ?get_set_other by exact Hne; reflexivity.
    + apply IH.
Qed.

(** X1: looking a ticker up in the dictionary returned by
    [fetch_historical_data] gives the provider's history of that ticker when
    the ticker was requested and the history is not empty, and nothing
    otherwise; no key is repeated. *)
Theorem fetch_historical_data_lookup (p : Provider) (ts : list ticker)
    (sd ed : string) (t : ticker) :
  Dict.get t (fetch_historical_data p ts sd ed)
  = (if existsb (String.eqb t) ts then history_of p sd ed t else None) /\
  NoDup (Dict.keys (fetch_historical_data p ts sd ed)).
Proof.
  unfold fetch_historical_data. split.
  - rewrite fetch_loop_get. simpl.
    destruct (existsb (String.eqb t) ts); [|reflexivity].
    now destruct (history_of p sd ed t).
  - apply fetch_loop_nodup. constructor.
Qed.

(** ** Daily returns of a price history *)

Lemma returns_index (prev : R) (s : Series) :
  prev <> 0 -> nonzero_prices s ->
  index (series_dropna (series_pct_change_from prev s)) = index s.
Proof.
  revert prev. induction s as [|[d p] tl IH]; intros prev Hprev Hnz;
    [reflexivity|].
  apply Forall_cons_iff in Hnz as [Hp Htl]. cbn [snd] in Hp.
  cbn [series_pct_change_from]. rewrite pct_cell_nonzero by exact Hprev.
  cbn [series_dropna index map fst]. f_equal. now apply IH.
Qed.

(** Compounding from the previous price walks through the later prices. *)
Lemma returns_compound (s : Series) :
  forall prev a c, prev <> 0 -> nonzero_prices s -> c * a = prev ->
  map (Rmult c)
      (cumprod_from a
         (one_plus (values (series_dropna (series_pct_change_from prev s)))))
  = values s.
Proof.
  induction s as [|[d p] tl IH]; intros prev a c Hprev Hnz Hca;
    [reflexivity|].
  apply Forall_cons_iff in Hnz as [Hp Htl]. cbn [snd] in Hp.
  cbn [series_pct_change_from]. rewrite pct_cell_nonzero by exact Hprev.
  cbn [series_dropna values one_plus map snd cumprod_from].
  assert (Hstep : c * (a * (1 + (p / prev - 1))) = p).
  { replace (c * (a * (1 + (p / prev - 1)))) with ((c * a) * (p / prev))
      by ring.
    rewrite Hca. field. exact Hprev. }
  f_equal; [exact Hstep|].
  apply (IH p); assumption.
Qed.

Lemma last_cons {A : Type} (l : list A) :
  forall a x, last (a :: l) x = last l a.
Proof.
  induction l as [|b l' IH]; intros a x; [reflexivity|].
  change (last (a :: b :: l') x) with (last (b :: l') x).
  change (last (b :: l') a) with (match l' with [] => b | _ => last l' a end).
  rewrite (IH b x). destruct l' as [|c l'']; [reflexivity|].
  symmetry. apply (IH b a).
Qed.

Lemma prod_growth_cons (d : date) (r : R) (s : Series) :
  prod (one_plus (values ((d, r) :: s)))
  = (1 + r) * prod (one_plus (values s)).
Proof. reflexivity. Qed.

(** The product of the daily growth factors telescopes. *)
Lemma returns_prod (s : Series) :
  forall prev d0, prev <> 0 -> nonzero_prices s ->
  prod (one_plus (values (series_dropna (series_pct_change_from prev s))))
  = snd (last s (d0, prev)) / prev.
Proof.
  induction s as [|[d p] tl IH]; intros prev d0 Hprev Hnz.
  - simpl. now field.
  - apply Forall_cons_iff in Hnz as [Hp Htl]. cbn [snd] in Hp.
    cbn [series_pct_change_from]. rewrite pct_cell_nonzero by exact Hprev.
    cbn [series_dropna]. rewrite prod_growth_cons.
    rewrite (IH p d) by assumption. rewrite last_cons.
    field. split; assumption.
Qed.

(** X2: for a price history without a zero price, [calculate_returns] drops
    exactly the first date, and compounding the first price by the returns
    gives back all the later prices. *)
Theorem calculate_returns_round_trip (d0 : date) (p0 : R) (tl : Series) :
  nonzero_prices ((d0, p0) :: tl) ->
  index (calculate_returns ((d0, p0) :: tl)) = index tl /\
  compound p0 (calculate_returns ((d0, p0) :: tl)) = tl.
Proof.
  intros Hnz. apply Forall_cons_iff in Hnz as [Hp0 Htl]. cbn [snd] in Hp0.
  unfold calculate_returns. cbn [series_pct_change series_dropna].
  assert (Hidx := returns_index p0 tl Hp0 Htl).
  split; [exact Hidx|].
  unfold compound, with_values, cumprod. rewrite Hidx.
  rewrite (returns_compound tl p0 1 p0) by (auto; lra).
  unfold index, values. clear. induction tl as [|[d p] tl IH]; [reflexivity|].
  simpl. now rewrite IH.
Qed.

Lemma calculate_returns_round_trip_witness :
  compound 100 (calculate_returns [(1%nat, 100); (2%nat, 110); (3%nat, 121)])
  = [(2%nat, 110); (3%nat, 121)].
Proof.
  apply (calculate_returns_round_trip 1%nat 100 [(2%nat, 110); (3%nat, 121)]).
  repeat constructor; simpl; lra.
Defined.

Lemma total_return_is_endpoint_change_aux (d0 : date) (p0 : R) (tl : Series) :
  nonzero_prices ((d0, p0) :: tl) ->
  total_return_of (calculate_returns ((d0, p0) :: tl))
  = snd (last tl (d0, p0)) / p0 - 1.
Proof.
  intros Hnz. apply Forall_cons_iff in Hnz as [Hp0 Htl]. cbn [snd] in Hp0.
  unfold total_return_of, calculate_returns.
  cbn [series_pct_change series_dropna].
  now rewrite (returns_prod tl p0 d0 Hp0 Htl).
Qed.

(** X3: the total return computed from the daily returns of a price history
    without a zero price is the change from the first to the last price:
    [last / first - 1]. *)
Theorem total_return_is_endpoint_change (d0 : date) (p0 : R) (tl : Series) :
  nonzero_prices ((d0, p0) :: tl) ->
  total_return_of (calculate_returns ((d0, p0) :: tl))
  = snd (last tl (d0, p0)) / p0 - 1.
Proof. apply total_return_is_endpoint_change_aux. Qed.

Lemma total_return_is_endpoint_change_witness :
  total_return_of (calculate_returns [(1%nat, 100); (2%nat, 110); (3%nat, 121)])
  = 121 / 100 - 1.
Proof.
  apply (total_return_is_endpoint_change 1%nat 100 [(2%nat, 110); (3%nat, 121)]).
  repeat constructor; simpl; lra.
Defined.

(** ** Ranges of the metrics *)

Lemma filter_length_le {A : Type} (f : A -> bool) (l : list A) :
  (length (filter f l) <= length l)%nat.
Proof.
  induction l as [|x tl IH]; simpl; [lia|]. destruct (f x); simpl; lia.
Qed.

(** X4: the [win_rate] of every MetricSet is a finite percentage between 0
    and 100. *)
Theorem win_rate_is_a_percentage
    (returns : Series) (bench : option Series) (m : Metrics) :
  calculate_performance_metrics returns bench = Returns m ->
  exists w, Dict.get "win_rate" m = Some (Num w) /\ 0 <= w <= 100.
Proof.
  intros Hrun. unfold calculate_performance_metrics in Hrun.
  destruct (length returns) as [|n] eqn:Hn; [discriminate|].
  injection Hrun as <-.
  rewrite benchmark_metrics_get by discriminate.
  simpl Dict.get.
  change (match n with 0%nat => 1 | S _ => INR n + 1 end) with (INR (S n)).
  eexists. split; [reflexivity|].
  set (wins := length (filter (fun p : date * R => Rltb 0 (snd p)) returns)).
  assert (Hle : (wins <= S n)%nat)
    by (subst wins; rewrite <- Hn; apply filter_length_le).
  assert (Hpos : 0 < INR (S n)) by (apply lt_0_INR; lia).
  assert (H0 : 0 <= INR wins) by apply pos_INR.
  assert (H1 : INR wins <= INR (S n)) by now apply le_INR.
  assert (Hq : 0 <= INR wins / INR (S n) <= 1).
  { split.
    - apply Rmult_le_pos; [exact H0 | left; now apply Rinv_0_lt_compat].
    - apply (Rmult_le_reg_r (INR (S n))); [exact Hpos|].
      unfold Rdiv. rewrite Rmult_assoc, Rinv_l by lra. lra. }
  lra.
Qed.

Lemma win_rate_is_a_percentage_witness :
  exists m w,
    calculate_performance_metrics [(1%nat, -0.01); (2%nat, 0.02)] None
      = Returns m /\
    Dict.get "win_rate" m = Some (Num w) /\ 0 <= w <= 100.
Proof.
  eexists.
  destruct (win_rate_is_a_percentage [(1%nat, -0.01); (2%nat, 0.02)] None _ eq_refl)
    as [w [Hget Hw]].
  exists w. split; [reflexivity|]. split; assumption.
Defined.

Lemma fold_left_Rmax_bounds (l : list R) :
  forall x, x <= fold_left Rmax l x /\
            (forall y, In y l -> y <= fold_left Rmax l x) /\
            In (fold_left Rmax l x) (x :: l).
Proof.
  induction l as [|a tl IH]; intros x.
  - simpl. repeat split; [lra | tauto | now left].
  - cbn [fold_left]. destruct (IH (Rmax x a)) as [H1 [H2 H3]].
    pose proof (Rmax_l x a). pose proof (Rmax_r x a).
    repeat split.
    + lra.
    + intros y [<-|Hy]; [lra | now apply H2].
    + destruct H3 as [H3|H3].
      * rewrite <- H3. unfold Rmax. destruct (Rle_dec x a); [right; now left | now left].
      * right. now right.
Qed.

Lemma fold_left_Rmin_bounds (l : list R) :
  forall x, fold_left Rmin l x <= x /\
            (forall y, In y l -> fold_left Rmin l x <= y) /\
            In (fold_left Rmin l x) (x :: l).
Proof.
  induction l as [|a tl IH]; intros x.
  - simpl. repeat split; [lra | tauto | now left].
  - cbn [fold_left]. destruct (IH (Rmin x a)) as [H1 [H2 H3]].
    pose proof (Rmin_l x a). pose proof (Rmin_r x a).
    repeat split.
    + lra.
    + intros y [<-|Hy]; [lra | now apply H2].
    + destruct H3 as [H3|H3].
      * rewrite <- H3. unfold Rmin. destruct (Rle_dec x a); [now left | right; now left].
      * right. now right.
Qed.

(** X5: [best_day] and [worst_day] are finite, each is one of the daily
    returns (times 100), and every daily return lies between them. *)
Theorem best_and_worst_day
    (returns : Series) (bench : option Series) (m : Metrics) :
  calculate_performance_metrics returns bench = Returns m ->
  exists best worst,
    Dict.get "best_day" m = Some (Num (best * 100)) /\
    Dict.get "worst_day" m = Some (Num (worst * 100)) /\
    In best (values returns) /\ In worst (values returns) /\
    forall r, In r (values returns) -> worst <= r <= best.
Proof.
  intros Hrun. unfold calculate_performance_metrics in Hrun.
  destruct returns as [|[d x] tl]; [discriminate|].
  cbn [length] in Hrun. injection Hrun as <-.
  rewrite !benchmark_metrics_get by discriminate.
  exists (fold_left Rmax (values tl) x), (fold_left Rmin (values tl) x).
  destruct (fold_left_Rmax_bounds (values tl) x) as [M1 [M2 M3]].
  destruct (fold_left_Rmin_bounds (values tl) x) as [N1 [N2 N3]].
  split; [reflexivity|]. split; [reflexivity|].
  split; [exact M3|]. split; [exact N3|].
  intros r [<-|Hr]; split; auto.
Qed.

Lemma best_and_worst_day_witness :
  exists m best worst,
    calculate_performance_metrics [(1%nat, -0.01); (2%nat, 0.02)] None
      = Returns m /\
    Dict.get "best_day" m = Some (Num (best * 100)) /\
    Dict.get "worst_day" m = Some (Num (worst * 100)) /\
    worst <= best.
Proof.
  eexists.
  destruct (best_and_worst_day [(1%nat, -0.01); (2%nat, 0.02)] None _ eq_refl)
    as [best [worst [Hb [Hw [Hin [_ Hall]]]]]].
  exists best, worst. split; [reflexivity|]. split; [exact Hb|].
  split; [exact Hw|]. apply (Hall best Hin).
Defined.

(** ** Drawdown *)

Lemma cumprod_from_pos (l : list R) :
  forall acc, 0 < acc -> Forall (Rlt 0) l -> Forall (Rlt 0) (cumprod_from acc l).
Proof.
  induction l as [|x tl IH]; intros acc Hacc Hl; [constructor|].
  apply Forall_cons_iff in Hl as [Hx Htl]. cbn [cumprod_from].
  assert (0 < acc * x) by now apply Rmult_lt_0_compat.
  constructor; [assumption | now apply IH].
Qed.

Lemma growth_factors_pos (returns : Series) :
  (forall r, In r (values returns) -> -1 < r) ->
  Forall (Rlt 0) (one_plus (values returns)).
Proof.
  intros Hr. unfold one_plus. apply Forall_forall. intros y Hy.
  apply in_map_iff in Hy as [r [<- Hin]]. specialize (Hr r Hin). lra.
Qed.

Lemma prod_pos (l : list R) : Forall (Rlt 0) l -> 0 < prod l.
Proof.
  induction l as [|x tl IH]; intros Hl; [simpl; lra|].
  apply Forall_cons_iff in Hl as [Hx Htl].
  change (prod (x :: tl)) with (x * prod tl).
  apply Rmult_lt_0_compat; auto.
Qed.

(** A positive value never exceeds its running maximum. *)
Lemma expanding_max_from_pairs (l : list R) :
  forall acc, Forall (Rlt 0) l ->
  Forall (fun p => 0 < fst p <= snd p) (combine l (expanding_max_from acc l)).
Proof.
  induction l as [|x tl IH]; intros acc Hl; [constructor|].
  apply Forall_cons_iff in Hl as [Hx Htl].
  cbn [expanding_max_from combine]. constructor; [|now apply IH].
  cbn [fst snd]. split; [exact Hx | apply Rmax_r].
Qed.

Lemma expanding_max_pairs (l : list R) :
  Forall (Rlt 0) l ->
  Forall (fun p => 0 < fst p <= snd p) (combine l (expanding_max l)).
Proof.
  destruct l as [|x tl]; intros Hl; [constructor|].
  apply Forall_cons_iff in Hl as [Hx Htl].
  cbn [expanding_max combine]. constructor.
  - cbn [fst snd]. lra.
  - now apply expanding_max_from_pairs.
Qed.

Lemma expanding_max_length (l : list R) :
  length (expanding_max l) = length l.
Proof.
  destruct l as [|x tl]; [reflexivity|]. cbn [expanding_max length]. f_equal.
  generalize x. induction tl as [|y ys IH]; intros acc; [reflexivity|].
  cbn [expanding_max_from length]. f_equal. apply IH.
Qed.

Lemma cumulative_length (returns : Series) :
  length (cumprod (one_plus (values returns))) = length returns.
Proof.
  unfold cumprod, one_plus, values.
  now rewrite cumprod_from_length, !length_map.
Qed.

Lemma drawdown_cells (pairs : list (R * R)) :
  Forall (fun p => 0 < fst p <= snd p) pairs ->
  exists vs,
    dropna_values
      (map (fun p => np_div (Num (fst p - snd p)) (Num (snd p))) pairs) = vs /\
    length vs = length pairs /\
    Forall (fun v => -1 < v <= 0) vs.
Proof.
  induction pairs as [|[c mx] tl IH]; intros Hp.
  - exists []. repeat split. constructor.
  - apply Forall_cons_iff in Hp as [[Hc Hm] Htl]. cbn [fst snd] in Hc, Hm.
    destruct (IH Htl) as [vs [Hvs [Hlen Hrange]]].
    exists ((c - mx) / mx :: vs). cbn [map fst snd]. unfold np_div at 1.
    destruct (Req_dec_T mx 0); [lra|].
    cbn [dropna_values]. rewrite Hvs. split; [reflexivity|].
    split; [simpl; now rewrite Hlen|].
    constructor; [|exact Hrange].
    assert (Hinv : 0 < / mx) by (apply Rinv_0_lt_compat; lra).
    assert (Hq : (c - mx) / mx = c * / mx - 1) by (field; lra).
    rewrite Hq. split.
    + assert (0 < c * / mx) by now apply Rmult_lt_0_compat. lra.
    + assert (c * / mx <= mx * / mx)
        by (apply Rmult_le_compat_r; lra).
      rewrite Rinv_r in H by lra. lra.
Qed.

Lemma max_drawdown_value (returns : Series) :
  returns <> [] ->
  (forall r, In r (values returns) -> -1 < r) ->
  exists d, nanmin (drawdown_of returns) = Num d /\ -1 < d <= 0.
Proof.
  intros Hne Hr. unfold nanmin, drawdown_of.
  pose proof (growth_factors_pos returns Hr) as Hpos.
  assert (Hcum : Forall (Rlt 0) (cumprod (one_plus (values returns))))
    by (apply cumprod_from_pos; [lra | exact Hpos]).
  destruct (drawdown_cells _ (expanding_max_pairs _ Hcum))
    as [vs [-> [Hlen Hrange]]].
  destruct vs as [|v tl].
  - exfalso. apply Hne. apply length_zero_iff_nil.
    rewrite length_combine, expanding_max_length, cumulative_length in Hlen.
    simpl in Hlen. lia.
  - exists (fold_left Rmin tl v). split; [reflexivity|].
    destruct (fold_left_Rmin_bounds tl v) as [_ [_ Hin]].
    rewrite Forall_forall in Hrange. now apply Hrange.
Qed.

(** X6: when every daily return is above -100%, [max_drawdown] is a finite
    percentage in the range (-100, 0]. *)
Theorem max_drawdown_range
    (returns : Series) (bench : option Series) (m : Metrics) :
  calculate_performance_metrics returns bench = Returns m ->
  (forall r, In r (values returns) -> -1 < r) ->
  exists d, Dict.get "max_drawdown" m = Some (Num d) /\ -100 < d <= 0.
Proof.
  intros Hrun Hr.
  destruct (max_drawdown_value returns) as [d [Hd Hrange]]; [|exact Hr|].
  { intros ->. discriminate. }
  unfold calculate_performance_metrics in Hrun.
  destruct (length returns) as [|n]; [discriminate|].
  injection Hrun as <-.
  rewrite benchmark_metrics_get by discriminate.
  simpl Dict.get. rewrite Hd. exists (d * 100). split; [reflexivity | lra].
Qed.

Lemma max_drawdown_range_witness :
  exists m d,
    calculate_performance_metrics [(1%nat, -0.01); (2%nat, 0.02)] None
      = Returns m /\
    Dict.get "max_drawdown" m = Some (Num d) /\ -100 < d <= 0.
Proof.
  eexists.
  destruct (max_drawdown_range [(1%nat, -0.01); (2%nat, 0.02)] None _ eq_refl)
    as [d [Hget Hd]].
  - intros r Hin. simpl in Hin. destruct Hin as [<-|[<-|[]]]; lra.
  - exists d. split; [reflexivity|]. split; assumption.
Defined.

(** ** Keys of the MetricSet *)

Lemma filter_nonempty_existsb {A : Type} (f : A -> bool) (l : list A) :
  (0 <? length (filter f l))%nat = existsb f l.
Proof.
  induction l as [|x tl IH]; [reflexivity|]. simpl.
  destruct (f x); [reflexivity | exact IH].
Qed.

Lemma has_date_empty (d : date) : has_date d [] = false.
Proof. reflexivity. Qed.

(** X8: the benchmark block is all or nothing: a MetricSet has either
    exactly the nine basic keys, or those followed by the four benchmark
    keys, the latter exactly when a benchmark series is given that shares a
    date with the return series.  In particular [alpha] is present only
    together with [correlation_to_benchmark] and [information_ratio]. *)
Theorem metric_keys_all_or_nothing
    (returns : Series) (bench : option Series) (m : Metrics) :
  calculate_performance_metrics returns bench = Returns m ->
  Dict.keys m
  = if shares_a_date returns bench
    then (metric_keys ++ benchmark_keys)%list
    else metric_keys.
Proof.
  intros Hrun. unfold calculate_performance_metrics in Hrun.
  destruct (length returns) as [|n]; [discriminate|].
  injection Hrun as <-. unfold benchmark_metrics, shares_a_date.
  destruct bench as [b|]; [|reflexivity].
  unfold align_inner. cbn [fst snd]. rewrite filter_nonempty_existsb.
  destruct b as [|b0 btl].
  - cbn [length Nat.ltb Nat.leb].
    assert (Hnone : existsb (fun p : date * R => has_date (fst p) []) returns = false).
    { clear. induction returns as [|p tl IH]; [reflexivity|]. simpl. exact IH. }
    rewrite Hnone. reflexivity.
  - cbn [length Nat.ltb Nat.leb].
    destruct (existsb _ returns); reflexivity.
Qed.

Lemma metric_keys_all_or_nothing_witness :
  exists m,
    calculate_performance_metrics [(1%nat, -0.01); (2%nat, 0.02)]
      (Some [(2%nat, 0.01); (3%nat, 0.02)]) = Returns m /\
    Dict.keys m = (metric_keys ++ benchmark_keys)%list.
Proof.
  eexists. split; [reflexivity|].
  apply (metric_keys_all_or_nothing [(1%nat, -0.01); (2%nat, 0.02)]
           (Some [(2%nat, 0.01); (3%nat, 0.02)]) _ eq_refl).
Defined.

(** ** Final value and total return *)

Lemma iloc_last_inv (s : Series) (v : R) :
  iloc_last s = Returns v -> exists init d, s = (init ++ [(d, v)])%list.
Proof.
  unfold iloc_last. intros H.
  destruct (rev s) as [|[d x] r] eqn:Hrev; [discriminate|].
  injection H as ->. exists (rev r), d.
  rewrite <- (rev_involutive s), Hrev. reflexivity.
Qed.

Lemma compound_last (capital : R) (s : Series) (v : R) :
  iloc_last (compound capital s) = Returns v ->
  v = capital * prod (one_plus (values s)).
Proof.
  intros Hlast. apply iloc_last_inv in Hlast as [init [d Hs]].
  destruct (compound_compounds_daily capital s) as [_ Hnth].
  assert (Hlen : length s = S (length init)).
  { rewrite <- (compound_length capital s), Hs, length_app. simpl. lia. }
  specialize (Hnth (length init) ltac:(lia)).
  rewrite Hs in Hnth. unfold values in Hnth at 1.
  rewrite map_app, app_nth2 in Hnth by (rewrite length_map; lia).
  rewrite length_map, Nat.sub_diag in Hnth. cbn [map nth snd] in Hnth.
  rewrite Hnth. f_equal. f_equal.
  rewrite <- Hlen. apply firstn_all2.
  unfold one_plus, values. rewrite !length_map. lia.
Qed.

Lemma finish_backtest_total_return self bench prices returns weights pr sd ed
    self' res :
  finish_backtest self bench prices returns weights pr sd ed
    = Returns (self', Results res) ->
  initial_capital self <> 0 ->
  final_value res
    = initial_capital self * (1 + total_return_of (portfolio_returns res)) /\
  Dict.get "total_return" (portfolio_metrics res)
    = Some (Num (total_return_pct res)).
Proof.
  intros Hrun Hcap.
  assert (Hpct : total_return_pct res
                 = (final_value res / initial_capital self - 1) * 100).
  { unfold finish_backtest in Hrun.
    destruct (calculate_performance_metrics _ _); [|discriminate].
    destruct (individual_loop _ _ _); [|discriminate].
    destruct (iloc_last _); [|discriminate].
    cbn [bind] in Hrun. injection Hrun as _ <-. reflexivity. }
  apply finish_backtest_inv in Hrun
    as [Hpr [_ [_ [_ [_ [_ [Hm [_ [Hfv _]]]]]]]]].
  apply compound_last in Hfv. rewrite Hpr.
  assert (Hfinal : final_value res
                   = initial_capital self * (1 + total_return_of pr)).
  { rewrite Hfv. unfold total_return_of. f_equal. ring. }
  split; [exact Hfinal|].
  unfold calculate_performance_metrics in Hm.
  destruct (length pr); [discriminate|]. injection Hm as <-.
  rewrite benchmark_metrics_get by discriminate. simpl Dict.get.
  rewrite Hpct, Hfinal. do 2 f_equal. field. exact Hcap.
Qed.

(** X9: in both backtests run with a non-zero initial capital, the final
    value is the capital grown by the total return of the portfolio return
    series, and the result's [total_return_pct] is the very number stored
    under [total_return] in the portfolio metrics. *)
Theorem total_return_pct_matches_metric :
  (forall provider self requested sd ed b self' res,
     backtest_equal_weight_portfolio provider self requested sd ed b
       = Returns (self', Results res) ->
     initial_capital self <> 0 ->
     final_value res
       = initial_capital self * (1 + total_return_of (portfolio_returns res)) /\
     Dict.get "total_return" (portfolio_metrics res)
       = Some (Num (total_return_pct res))) /\
  (forall provider self weights sd ed b self' res,
     backtest_weighted_portfolio provider self weights sd ed b
       = Returns (self', Results res) ->
     initial_capital self <> 0 ->
     final_value res
       = initial_capital self * (1 + total_return_of (portfolio_returns res)) /\
     Dict.get "total_return" (portfolio_metrics res)
       = Some (Num (total_return_pct res))).
Proof.
  split.
  - intros provider self requested sd ed b self' res Hrun.
    unfold backtest_equal_weight_portfolio in Hrun.
    destruct (frame_empty _); [discriminate|].
    eapply finish_backtest_total_return. exact Hrun.
  - intros provider self weights sd ed b self' res Hrun.
    unfold backtest_weighted_portfolio in Hrun.
    destruct (validate_weights weights); [|discriminate]. cbn [bind] in Hrun.
    destruct (frame_empty _); [discriminate|].
    eapply finish_backtest_total_return. exact Hrun.
Qed.

Lemma total_return_pct_matches_metric_witness :
  exists self' res,
    backtest_equal_weight_portfolio demo (fresh 100000) ["AAA"; "BBB"]
      "2024-01-01" "2024-01-04" "SPY" = Returns (self', Results res) /\
    Dict.get "total_return" (portfolio_metrics res)
      = Some (Num (total_return_pct res)).
Proof.
  destruct demo_equal_run as [self' [res Hrun]].
  exists self', res. split; [exact Hrun|].
  apply (proj1 total_return_pct_matches_metric _ _ _ _ _ _ _ _ Hrun).
  simpl. lra.
Defined.

(** ** Weight validation is stable *)

Lemma sum_divided_weights (w : Dict.t R) (s : R) :
  sum (Dict.vals (map (fun kv : string * R => (fst kv, snd kv / s)) w))
  = sum (Dict.vals w) / s.
Proof.
  induction w as [|[k v] tl IH].
  - simpl. unfold Rdiv. now rewrite Rmult_0_l.
  - change (v / s
            + sum (Dict.vals (map (fun kv : string * R => (fst kv, snd kv / s)) tl))
            = (v + sum (Dict.vals tl)) / s).
    rewrite IH. unfold Rdiv. ring.
Qed.

(** X10: validating already validated weights changes nothing: the
    renormalization done by the caller before the backtest makes the
    backtest's own validation a no-op. *)
Theorem validate_weights_idempotent (w w' : Dict.t R) :
  validate_weights w = Returns w' -> validate_weights w' = Returns w'.
Proof.
  intros Hv. unfold validate_weights in Hv.
  destruct (Rlt_dec 0.01 (Rabs (sum (Dict.vals w) - 1))) as [Hgt|Hle].
  - destruct (Req_dec_T (sum (Dict.vals w)) 0) as [Hz|Hnz].
    + rewrite Hz in Hv. destruct w as [|[k v] tl].
      * injection Hv as <-. unfold validate_weights.
        destruct (Rlt_dec _ _); reflexivity.
      * rewrite divide_weights_zero in Hv. discriminate.
    + rewrite divide_weights_returns in Hv by exact Hnz.
      injection Hv as <-. apply validate_weights_unchanged.
      rewrite sum_divided_weights.
      replace (sum (Dict.vals w) / sum (Dict.vals w) - 1)
        with 0 by (field; exact Hnz).
      rewrite Rabs_R0. lra.
  - injection Hv as <-. apply validate_weights_unchanged. lra.
Qed.

Lemma validate_weights_idempotent_witness :
  exists w',
    validate_weights [("AAA", 0.5); ("BBB", 0.47)] = Returns w' /\
    validate_weights w' = Returns w'.
Proof.
  assert (Hsum : sum (Dict.vals [("AAA", 0.5); ("BBB", 0.47)]) = 0.97)
    by (simpl; lra).
  eexists. split.
  - apply validate_weights_normalized; rewrite Hsum;
      [unfold Rabs; destruct (Rcase_abs (0.97 - 1)); lra | lra].
  - apply (validate_weights_idempotent [("AAA", 0.5); ("BBB", 0.47)]).
    apply validate_weights_normalized; rewrite Hsum;
      [unfold Rabs; destruct (Rcase_abs (0.97 - 1)); lra | lra].
Defined.

(** ** The drawdown chart *)

Lemma expanding_max_from_scaled (c : R) (l : list R) :
  0 <= c -> forall acc,
  expanding_max_from (c * acc) (map (Rmult c) l)
  = map (Rmult c) (expanding_max_from acc l).
Proof.
  intros Hc. induction l as [|x tl IH]; intros acc; [reflexivity|].
  cbn [map expanding_max_from]. rewrite RmaxRmult by exact Hc.
  now rewrite IH.
Qed.

Lemma expanding_max_scaled (c : R) (l : list R) :
  0 <= c -> expanding_max (map (Rmult c) l) = map (Rmult c) (expanding_max l).
Proof.
  intros Hc. destruct l as [|x tl]; [reflexivity|].
  cbn [map expanding_max]. now rewrite expanding_max_from_scaled.
Qed.

Lemma drawdown_cells_scaled (c : R) (l1 l2 : list R) :
  0 < c ->
  map (fun p => np_mul (np_div (Num (fst p - snd p)) (Num (snd p))) (Num 100))
      (combine (map (Rmult c) l1) (map (Rmult c) l2))
  = map pct
      (map (fun p => np_div (Num (fst p - snd p)) (Num (snd p)))
           (combine l1 l2)).
Proof.
  intros Hc. revert l2. induction l1 as [|a t1 IH]; intros [|b t2];
    try reflexivity.
  cbn [map combine]. rewrite IH. f_equal. cbn [fst snd np_div].
  destruct (Req_dec_T (c * b) 0) as [Hz|Hnz];
    destruct (Req_dec_T b 0) as [Hb|Hb]; try reflexivity.
  - exfalso. apply Rmult_integral in Hz. destruct Hz; lra.
  - exfalso. apply Hnz. rewrite Hb. ring.
  - unfold pct, np_mul. do 2 f_equal. field. split; lra.
Qed.

(** X11: for a positive initial capital, the drawdown series drawn by the
    chart from the portfolio value curve is, point by point, the drawdown
    series of the metric computation on the portfolio returns, in percent:
    scaling by the capital cancels out. *)
Theorem drawdown_chart_matches_metric (capital : R) (returns : Series) :
  0 < capital ->
  drawdown_chart (compound capital returns) = map pct (drawdown_of returns).
Proof.
  intros Hc. unfold drawdown_chart, drawdown_of, compound.
  rewrite values_with_values by apply compound_scaled_length.
  rewrite expanding_max_scaled by lra.
  now apply drawdown_cells_scaled.
Qed.

Lemma drawdown_chart_matches_metric_witness :
  drawdown_chart (compound 100000 [(1%nat, 0.01); (2%nat, -0.02)])
  = map pct (drawdown_of [(1%nat, 0.01); (2%nat, -0.02)]).
Proof. apply drawdown_chart_matches_metric. lra. Defined.

(** ** Uniform weights *)

Lemma weighted_row_uniform (w : Dict.t R) (k : R) :
  forall (row : list R) (cols : list ticker) (acc : R),
  length row = length cols ->
  (forall t, In t cols -> weight_of w t = k) ->
  fold_left (fun a p => a + fst p * weight_of w (snd p)) (combine row cols) acc
  = acc + sum row * k.
Proof.
  induction row as [|x xs IH]; intros cols acc Hlen Hw.
  - simpl. ring.
  - destruct cols as [|c cs]; [discriminate|].
    cbn [combine fold_left fst snd]. rewrite IH.
    + rewrite (Hw c) by now left.
      change (sum (x :: xs)) with (x + sum xs). ring.
    + simpl in Hlen. lia.
    + intros t Ht. apply Hw. now right.
Qed.

(** X12: when the validated mapping gives each of the [k] tickers of the
    result the weight [1/k], the weighted backtest has the portfolio returns
    and the portfolio values of the equal-weight backtest of the same
    tickers. *)
Theorem uniform_weights_match_equal_weight
    (provider : Provider) (self : PortfolioBacktester) (w w' : Dict.t R)
    (sd ed : string) (b : ticker)
    (s1 s2 : PortfolioBacktester) (rw re : BacktestResult) :
  validate_weights w = Returns w' ->
  backtest_weighted_portfolio provider self w sd ed b
    = Returns (s1, Results rw) ->
  backtest_equal_weight_portfolio provider self (Dict.keys w') sd ed b
    = Returns (s2, Results re) ->
  (forall t, In t (tickers rw) ->
     weight_of w' t = / INR (length (tickers rw))) ->
  portfolio_returns rw = portfolio_returns re /\
  portfolio_value rw = portfolio_value re.
Proof.
  intros Hv Hw He Hu.
  unfold backtest_weighted_portfolio in Hw. rewrite Hv in Hw. cbn [bind] in Hw.
  unfold backtest_equal_weight_portfolio in He.
  destruct (frame_empty _); [discriminate|].
  apply finish_backtest_inv in Hw as [Hprw [Hpvw [_ [Htk _]]]].
  apply finish_backtest_inv in He as [Hpre [Hpve _]].
  assert (Heq : portfolio_returns rw = portfolio_returns re).
  { rewrite Hprw, Hpre. unfold weighted_sum, mean_axis1.
    apply map_ext_in. intros [d row] Hin. cbn [fst snd]. f_equal.
    pose proof (returns_rectangular provider (Dict.keys w') sd ed b) as Hrect.
    unfold rectangular in Hrect. rewrite Forall_forall in Hrect.
    specialize (Hrect _ Hin). cbn [snd] in Hrect.
    unfold weighted_row. cbn [dropna pct_change columns].
    rewrite (weighted_row_uniform w'
               (/ INR (length (columns (snd (load_prices provider
                                  (Dict.keys w') sd ed b)))))).
    - unfold mean, Rdiv. rewrite Hrect. ring.
    - exact Hrect.
    - intros t Ht. rewrite <- Htk. apply Hu. now rewrite Htk. }
  split; [exact Heq|].
  rewrite Hpvw, Hpve. rewrite Hprw, Hpre in Heq. now rewrite Heq.
Qed.

Lemma half_weights_valid :
  validate_weights [("AAA", 0.5); ("BBB", 0.5)]
  = Returns [("AAA", 0.5); ("BBB", 0.5)].
Proof.
  apply validate_weights_unchanged. simpl.
  unfold Rabs. destruct (Rcase_abs (0.5 + (0.5 + 0) - 1)); lra.
Qed.

Lemma demo_half_weights_run :
  exists self' res,
    backtest_weighted_portfolio demo (fresh 100000)
      [("AAA", 0.5); ("BBB", 0.5)] "2024-01-01" "2024-01-04" "SPY"
    = Returns (self', Results res) /\
    tickers res = ["AAA"; "BBB"].
Proof.
  unfold backtest_weighted_portfolio. rewrite half_weights_valid.
  cbn [bind]. evaluate.
  eexists. eexists. split; reflexivity.
Qed.

Lemma uniform_weights_match_equal_weight_witness :
  exists s1 rw s2 re,
    backtest_weighted_portfolio demo (fresh 100000)
      [("AAA", 0.5); ("BBB", 0.5)] "2024-01-01" "2024-01-04" "SPY"
    = Returns (s1, Results rw) /\
    backtest_equal_weight_portfolio demo (fresh 100000) ["AAA"; "BBB"]
      "2024-01-01" "2024-01-04" "SPY" = Returns (s2, Results re) /\
    portfolio_returns rw = portfolio_returns re.
Proof.
  destruct demo_half_weights_run as [s1 [rw [Hw Htk]]].
  destruct demo_equal_run as [s2 [re He]].
  exists s1, rw, s2, re. split; [exact Hw|]. split; [exact He|].
  apply (uniform_weights_match_equal_weight demo (fresh 100000)
           [("AAA", 0.5); ("BBB", 0.5)] [("AAA", 0.5); ("BBB", 0.5)]
           "2024-01-01" "2024-01-04" "SPY" s1 s2 rw re
           half_weights_valid Hw He).
  rewrite Htk. intros t Ht. simpl in Ht.
  destruct Ht as [<-|[<-|[]]]; unfold weight_of; simpl; lra.
Defined.

(** ** Trading days and daily returns *)

Lemma series_at_ok (d : date) (s : Series) :
  nonzero_prices s -> cell_ok (series_at d s).
Proof.
  induction s as [|[d' v] tl IH]; intros Hnz; [exact I|].
  apply Forall_cons_iff in Hnz as [Hv Htl]. simpl.
  destruct (d =? d')%nat; [exact Hv | now apply IH].
Qed.

Lemma make_frame_cells_ok (data : Dict.t Series) :
  Forall nonzero_prices (Dict.vals data) ->
  Forall (fun row => Forall cell_ok (snd row)) (rows (make_frame data)).
Proof.
  intros Hnz. unfold make_frame. cbn [rows]. apply Forall_forall.
  intros row Hin. apply in_map_iff in Hin as [d [<- _]]. cbn [snd].
  apply Forall_forall. intros c Hc. apply in_map_iff in Hc as [s [<- Hs]].
  apply series_at_ok. rewrite Forall_forall in Hnz. now apply Hnz.
Qed.

Lemma fill_row_ok (cur : list npfloat) :
  forall prev, Forall cell_ok prev -> Forall cell_ok cur ->
  Forall cell_ok (fill_row prev cur).
Proof.
  induction cur as [|c cs IH]; intros prev Hprev Hcur; [constructor|].
  apply Forall_cons_iff in Hcur as [Hc Hcs]. cbn [fill_row]. constructor.
  - destruct c; [exact Hc|]. destruct prev; [exact I|].
    now apply Forall_cons_iff in Hprev as [Hp _].
  - apply IH; [|exact Hcs]. destruct prev; [constructor|].
    now apply Forall_cons_iff in Hprev as [_ Ht].
Qed.

Lemma ffill_from_ok (rs : list (date * list npfloat)) :
  forall prev, Forall cell_ok prev ->
  Forall (fun row => Forall cell_ok (snd row)) rs ->
  Forall (fun row => Forall cell_ok (snd row)) (ffill_from prev rs).
Proof.
  induction rs as [|[d r] tl IH]; intros prev Hprev Hrs; [constructor|].
  apply Forall_cons_iff in Hrs as [Hr Htl]. cbn [snd] in Hr.
  cbn [ffill_from]. pose proof (fill_row_ok r prev Hprev Hr) as Hfill.
  constructor; [exact Hfill | now apply IH].
Qed.

Lemma all_num_ok (r : list npfloat) :
  forall r', Forall cell_ok r -> all_num r = Some r' ->
  Forall (fun v => v <> 0) r'.
Proof.
  induction r as [|c cs IH]; intros r' Hok Hnum.
  - injection Hnum as <-. constructor.
  - apply Forall_cons_iff in Hok as [Hc Hcs].
    destruct c as [v|]; [|discriminate]. simpl in Hnum.
    destruct (all_num cs) as [t|]; [|discriminate].
    injection Hnum as <-. constructor; [exact Hc | now apply IH].
Qed.

Lemma dropna_rows_ok (rs : list (date * list npfloat)) :
  Forall (fun row => Forall cell_ok (snd row)) rs ->
  Forall (fun row => Forall (fun v => v <> 0) (snd row)) (dropna_rows rs).
Proof.
  induction rs as [|[d r] tl IH]; intros Hrs; [constructor|].
  apply Forall_cons_iff in Hrs as [Hr Htl]. cbn [snd] in Hr.
  cbn [dropna_rows]. destruct (all_num r) as [r'|] eqn:Hnum; [|now apply IH].
  constructor; [|now apply IH]. cbn [snd]. now apply (all_num_ok r).
Qed.

Lemma pct_row_all_num (r : list R) :
  forall prev, Forall (fun v => v <> 0) prev ->
  exists r', all_num (map (fun p => pct_cell (fst p) (snd p)) (combine r prev))
             = Some r'.
Proof.
  induction r as [|x xs IH]; intros prev Hprev; [now exists []|].
  destruct prev as [|q qs]; [now exists []|].
  apply Forall_cons_iff in Hprev as [Hq Hqs].
  cbn [combine map fst snd]. rewrite pct_cell_nonzero by exact Hq.
  destruct (IH qs Hqs) as [r' Hr']. cbn [all_num]. rewrite Hr'.
  now eexists.
Qed.

(** With non-zero prices every row after the first yields a return row. *)
Lemma pct_change_rows_from_kept (rs : list (date * list R)) :
  forall prev, Forall (fun v => v <> 0) prev ->
  Forall (fun row => Forall (fun v => v <> 0) (snd row)) rs ->
  length (dropna_rows (pct_change_rows_from prev rs)) = length rs.
Proof.
  induction rs as [|[d r] tl IH]; intros prev Hprev Hrs; [reflexivity|].
  apply Forall_cons_iff in Hrs as [Hr Htl]. cbn [snd] in Hr.
  cbn [pct_change_rows_from dropna_rows].
  destruct (pct_row_all_num r prev Hprev) as [r' ->].
  cbn [length]. f_equal. now apply IH.
Qed.

Lemma pct_change_rows_kept (k : nat) (rs : list (date * list R)) :
  (0 < k)%nat -> rectangular k rs ->
  Forall (fun row => Forall (fun v => v <> 0) (snd row)) rs ->
  rs <> [] ->
  S (length (dropna_rows (pct_change_rows rs))) = length rs.
Proof.
  intros Hk Hrect Hrs Hne. destruct rs as [|[d r] tl]; [contradiction|].
  apply Forall_cons_iff in Hrs as [Hr Htl]. cbn [snd] in Hr.
  apply Forall_cons_iff in Hrect as [Hlen _]. cbn [snd] in Hlen.
  cbn [pct_change_rows dropna_rows].
  destruct r as [|x xs]; [simpl in Hlen; lia|].
  cbn [map all_num length]. f_equal.
  now apply pct_change_rows_from_kept.
Qed.

Lemma fetch_loop_forall (P : Series -> Prop) (p : Provider) (sd ed : string)
    (ts : list ticker) :
  (forall t df, p t sd ed = History df -> P df) ->
  forall d, Forall P (Dict.vals d) ->
  Forall P (Dict.vals (fetch_loop p sd ed ts d)).
Proof.
  intros Hp. induction ts as [|t tl IH]; intros d Hd; [exact Hd|].
  cbn [fetch_loop]. destruct (p t sd ed) as [df|] eqn:Ht; [|now apply IH].
  destruct (0 <? length df)%nat; [|now apply IH].
  apply IH. apply vals_set_forall; [now apply (Hp t) | exact Hd].
Qed.

Lemma prices_rows_nonzero (p : Provider) (ts : list ticker) (sd ed : string)
    (b : ticker) :
  quotes_nonzero p sd ed ->
  Forall (fun row => Forall (fun v => v <> 0) (snd row))
         (rows (snd (load_prices p ts sd ed b))).
Proof.
  intros Hq. rewrite load_prices_prices. cbn [dropna ffill rows].
  apply dropna_rows_ok, ffill_from_ok; [constructor|].
  apply make_frame_cells_ok, fetch_loop_forall; [exact Hq | constructor].
Qed.

Lemma prices_rectangular (p : Provider) (ts : list ticker) (sd ed : string)
    (b : ticker) :
  rectangular (length (columns (snd (load_prices p ts sd ed b))))
    (rows (snd (load_prices p ts sd ed b))).
Proof.
  rewrite load_prices_prices. cbn [dropna ffill columns rows].
  apply dropna_rows_rectangular, ffill_from_rectangular.
  unfold make_frame at 1. cbn [columns]. unfold Dict.keys. rewrite length_map.
  apply make_frame_rectangular.
Qed.

Lemma returns_rows_count (p : Provider) (ts : list ticker) (sd ed : string)
    (b : ticker) :
  quotes_nonzero p sd ed ->
  frame_empty (snd (load_prices p ts sd ed b)) = false ->
  S (length (rows (dropna (pct_change (snd (load_prices p ts sd ed b))))))
  = length (rows (snd (load_prices p ts sd ed b))).
Proof.
  intros Hq Hfe. unfold frame_empty in Hfe.
  apply orb_false_iff in Hfe as [Hrows Hcols].
  apply Nat.eqb_neq in Hrows. apply Nat.eqb_neq in Hcols.
  cbn [dropna pct_change rows].
  apply (pct_change_rows_kept
           (length (columns (snd (load_prices p ts sd ed b))))).
  - lia.
  - apply prices_rectangular.
  - now apply prices_rows_nonzero.
  - intros Hnil. apply Hrows. now rewrite Hnil.
Qed.

(** X13: when the provider quotes no zero price, [trading_days] counts the
    aligned price rows and is one more than the number of daily portfolio
    returns, in both backtests: the first aligned day yields no return. *)
Theorem trading_days_one_more_than_returns :
  (forall provider self requested sd ed b self' res,
     backtest_equal_weight_portfolio provider self requested sd ed b
       = Returns (self', Results res) ->
     quotes_nonzero provider sd ed ->
     trading_days res = S (length (portfolio_returns res))) /\
  (forall provider self weights sd ed b self' res,
     backtest_weighted_portfolio provider self weights sd ed b
       = Returns (self', Results res) ->
     quotes_nonzero provider sd ed ->
     trading_days res = S (length (portfolio_returns res))).
Proof.
  split.
  - intros provider self requested sd ed b self' res Hrun Hq.
    unfold backtest_equal_weight_portfolio in Hrun.
    destruct (frame_empty _) eqn:Hfe; [discriminate|].
    apply finish_backtest_inv in Hrun as [-> [_ [_ [_ [_ [-> _]]]]]].
    unfold mean_axis1. rewrite length_map.
    symmetry. now apply returns_rows_count.
  - intros provider self weights sd ed b self' res Hrun Hq.
    unfold backtest_weighted_portfolio in Hrun.
    destruct (validate_weights weights) as [w'|]; [|discriminate].
    cbn [bind] in Hrun.
    destruct (frame_empty _) eqn:Hfe; [discriminate|].
    apply finish_backtest_inv in Hrun as [-> [_ [_ [_ [_ [-> _]]]]]].
    unfold weighted_sum. rewrite length_map.
    symmetry. now apply returns_rows_count.
Qed.

Lemma demo_quotes_nonzero :
  quotes_nonzero demo "2024-01-01" "2024-01-04".
Proof.
  intros t df. unfold demo.
  destruct (String.eqb t "AAA");
    [intros H; injection H as <-; repeat constructor; simpl; lra|].
  destruct (String.eqb t "BBB");
    [intros H; injection H as <-; repeat constructor; simpl; lra|].
  destruct (String.eqb t "SPY");
    [intros H; injection H as <-; repeat constructor; simpl; lra|].
  discriminate.
Qed.

Lemma trading_days_one_more_than_returns_witness :
  exists self' res,
    backtest_equal_weight_portfolio demo (fresh 100000) ["AAA"; "BBB"]
      "2024-01-01" "2024-01-04" "SPY" = Returns (self', Results res) /\
    trading_days res = S (length (portfolio_returns res)).
Proof.
  destruct demo_equal_run as [self' [res Hrun]].
  exists self', res. split; [exact Hrun|].
  exact (proj1 trading_days_one_more_than_returns _ _ _ _ _ _ _ _ Hrun
           demo_quotes_nonzero).
Defined.

(** ** What [save_results] writes after a backtest *)

Lemma finish_backtest_state self bench prices returns weights pr sd ed self' d :
  finish_backtest self bench prices returns weights pr sd ed
    = Returns (self', d) ->
  exists res, d = Results res /\ results self' = Results res /\
              portfolio_weights res = weights.
Proof.
  unfold finish_backtest. intros H.
  destruct (calculate_performance_metrics _ _); [|discriminate].
  destruct (individual_loop _ _ _); [|discriminate].
  destruct (iloc_last _); [|discriminate].
  cbn [bind] in H. injection H as <- <-. eexists. repeat split.
Qed.

(** X14: a backtest that returns the empty result leaves the stored results
    untouched, so [save_results] then writes what an earlier run left (and
    nothing on a fresh backtester); a backtest that returns a populated
    result stores it, and [save_results] writes its tickers and final value,
    with an empty weight mapping for the equal-weight backtest and the
    validated weights for the weighted one. *)
Theorem save_results_after_backtest :
  (forall provider self requested sd ed b self' d,
     backtest_equal_weight_portfolio provider self requested sd ed b
       = Returns (self', d) ->
     match d with
     | EmptyDict => save_results self' = save_results self
     | Results res =>
         exists saved,
           save_results self' = Some saved /\
           saved_tickers saved = tickers res /\
           saved_final_value saved = final_value res /\
           saved_portfolio_weights saved = []
     end) /\
  (forall provider self weights sd ed b self' d,
     backtest_weighted_portfolio provider self weights sd ed b
       = Returns (self', d) ->
     match d with
     | EmptyDict => save_results self' = save_results self
     | Results res =>
         exists saved,
           save_results self' = Some saved /\
           saved_tickers saved = tickers res /\
           saved_final_value saved = final_value res /\
           validate_weights weights = Returns (saved_portfolio_weights saved)
     end).
Proof.
  split.
  - intros provider self requested sd ed b self' d Hrun.
    unfold backtest_equal_weight_portfolio in Hrun.
    destruct (frame_empty _).
    + injection Hrun as <- <-. reflexivity.
    + apply finish_backtest_state in Hrun as [res [-> [Hst Hw]]].
      unfold save_results. rewrite Hst, Hw. eexists. repeat split.
  - intros provider self weights sd ed b self' d Hrun.
    unfold backtest_weighted_portfolio in Hrun.
    destruct (validate_weights weights) as [w'|]; [|discriminate].
    cbn [bind] in Hrun. destruct (frame_empty _).
    + injection Hrun as <- <-. reflexivity.
    + apply finish_backtest_state in Hrun as [res [-> [Hst Hw]]].
      unfold save_results. rewrite Hst, Hw. eexists. repeat split.
Qed.

Lemma save_results_after_backtest_witness :
  exists self' res saved,
    backtest_equal_weight_portfolio demo (fresh 100000) ["AAA"; "BBB"]
      "2024-01-01" "2024-01-04" "SPY" = Returns (self', Results res) /\
    save_results self' = Some saved /\
    saved_tickers saved = tickers res.
Proof.
  destruct demo_equal_run as [self' [res Hrun]].
  destruct (proj1 save_results_after_backtest _ _ _ _ _ _ _ _ Hrun)
    as [saved [Hs [Ht _]]].
  exists self', res, saved. repeat split; assumption.
Defined.

(** ** Weights extracted from a generated portfolio *)

Lemma set_fresh_key {V : Type} (k : string) (v : V) (d : Dict.t V) :
  ~ In k (Dict.keys d) -> Dict.set k v d = (d ++ [(k, v)])%list.
Proof.
  induction d as [|[k0 v0] tl IH]; intros Hk; [reflexivity|].
  simpl. destruct (String.eqb_spec k k0) as [->|Hne].
  - exfalso. apply Hk. now left.
  - f_equal. apply IH. intros Hin. apply Hk. now right.
Qed.

Lemma extract_loop_keys (n : nat) (hs : list Holding) :
  forall w t,
    In t (Dict.keys (extract_loop n hs w)) <->
    In t (map h_ticker hs) \/ In t (Dict.keys w).
Proof.
  induction hs as [|h tl IH]; intros w t.
  - simpl. tauto.
  - cbn [extract_loop map]. rewrite IH, keys_set_in. simpl. intuition.
Qed.

Lemma extract_loop_nodup (n : nat) (hs : list Holding) :
  forall w, NoDup (Dict.keys w) -> NoDup (Dict.keys (extract_loop n hs w)).
Proof.
  induction hs as [|h tl IH]; intros w Hw; [exact Hw|].
  cbn [extract_loop]. apply IH. now apply keys_set_nodup.
Qed.

Lemma extract_loop_distinct (n : nat) (hs : list Holding) :
  forall w,
    NoDup (map h_ticker hs) ->
    (forall t, In t (map h_ticker hs) -> ~ In t (Dict.keys w)) ->
    extract_loop n hs w
    = (w ++ map (fun h => (h_ticker h, holding_weight n h)) hs)%list.
Proof.
  induction hs as [|h tl IH]; intros w Hnd Hfresh.
  - simpl. now rewrite app_nil_r.
  - inversion Hnd as [|? ? Hh Htl]; subst.
    cbn [extract_loop map]. rewrite set_fresh_key by (apply Hfresh; now left).
    rewrite IH.
    + now rewrite <- app_assoc.
    + exact Htl.
    + intros t Ht Hin. unfold Dict.keys in Hin.
      rewrite map_app, in_app_iff in Hin. destruct Hin as [Hin|[<-|[]]].
      * apply (Hfresh t); [now right | exact Hin].
      * now apply Hh.
Qed.

(** X15: on a portfolio object with a [holdings] attribute, the extraction
    returns nothing exactly when the list of holdings is empty (an
    [allocations] attribute is then not consulted); otherwise it returns a
    non-empty mapping whose keys, without repetition, are exactly the
    tickers of the holdings. *)
Theorem extract_weights_keys (hs : list Holding)
    (allocations : option (list Holding)) :
  (hs = [] ->
   extract_weights_from_portfolio (PortfolioObject (Some hs) allocations)
   = None) /\
  (hs <> [] ->
   exists w,
     extract_weights_from_portfolio (PortfolioObject (Some hs) allocations)
       = Some w /\
     w <> [] /\ NoDup (Dict.keys w) /\
     forall t, In t (Dict.keys w) <-> In t (map h_ticker hs)).
Proof.
  split.
  - intros ->. reflexivity.
  - intros Hne. destruct hs as [|h tl]; [contradiction|].
    eexists. split; [reflexivity|].
    assert (Hkeys : forall t,
              In t (Dict.keys (extract_loop (length (h :: tl)) (h :: tl) []))
              <-> In t (map h_ticker (h :: tl))).
    { intros t. rewrite extract_loop_keys. simpl. tauto. }
    split; [|split; [apply extract_loop_nodup; constructor | exact Hkeys]].
    intros Hnil. specialize (Hkeys (h_ticker h)). rewrite Hnil in Hkeys.
    simpl in Hkeys. tauto.
Qed.

Lemma extract_weights_keys_witness :
  exists w,
    extract_weights_from_portfolio
      (PortfolioObject
         (Some [mkHolding "AAA" (Some 60) None None;
                mkHolding "BBB" (Some 40) None None]) None) = Some w /\
    NoDup (Dict.keys w).
Proof.
  destruct (proj2 (extract_weights_keys
              [mkHolding "AAA" (Some 60) None None;
               mkHolding "BBB" (Some 40) None None] None))
    as [w [Hw [_ [Hnd _]]]]; [discriminate|].
  exists w. split; assumption.
Defined.

Lemma sum_allocations (n : nat) (hs : list Holding) (allocs : list R) :
  map h_allocation hs = map Some allocs ->
  sum (map (holding_weight n) hs) = sum allocs / 100.
Proof.
  revert allocs. induction hs as [|h tl IH]; intros [|a al] Hmap;
    try discriminate.
  - simpl. unfold Rdiv. now rewrite Rmult_0_l.
  - cbn [map] in Hmap. injection Hmap as Ha Htl.
    change (holding_weight n h + sum (map (holding_weight n) tl)
            = (a + sum al) / 100).
    rewrite (IH al Htl). unfold holding_weight. rewrite Ha. field.
Qed.

(** X16: for a portfolio that follows the output schema (distinct tickers,
    every holding with an [allocation] percentage, the percentages adding
    up to 100) the extracted weights are the allocations divided by 100, in
    the order of the holdings; they sum to 1 and the weighted backtest's
    validation leaves them unchanged. *)
Theorem schema_portfolio_weights (hs : list Holding) (allocs : list R)
    (allocations : option (list Holding)) :
  hs <> [] ->
  NoDup (map h_ticker hs) ->
  map h_allocation hs = map Some allocs ->
  sum allocs = 100 ->
  exists w,
    extract_weights_from_portfolio (PortfolioObject (Some hs) allocations)
      = Some w /\
    Dict.keys w = map h_ticker hs /\
    Dict.vals w = map (fun a => a / 100) allocs /\
    sum (Dict.vals w) = 1 /\
    validate_weights w = Returns w.
Proof.
  intros Hne Hnd Hall Hsum.
  assert (Hrun : extract_weights_from_portfolio
                   (PortfolioObject (Some hs) allocations)
                 = Some (map (fun h => (h_ticker h,
                                        holding_weight (length hs) h)) hs)).
  { destruct hs as [|h tl]; [contradiction|].
    cbn [extract_weights_from_portfolio].
    rewrite extract_loop_distinct; [reflexivity | exact Hnd | tauto]. }
  eexists. split; [exact Hrun|].
  assert (Hvals : Dict.vals (map (fun h => (h_ticker h,
                                   holding_weight (length hs) h)) hs)
                  = map (holding_weight (length hs)) hs).
  { unfold Dict.vals. now rewrite map_map. }
  assert (Hone : sum (map (holding_weight (length hs)) hs) = 1).
  { rewrite (sum_allocations _ hs allocs Hall), Hsum. field. }
  split; [unfold Dict.keys; now rewrite map_map|].
  split; [|split].
  - rewrite Hvals. clear - Hall. generalize (length hs). intros n.
    revert allocs Hall. induction hs as [|h tl IH]; intros [|a al] Hmap;
      try discriminate; [reflexivity|].
    cbn [map] in Hmap. injection Hmap as Ha Htl. cbn [map].
    f_equal; [unfold holding_weight; now rewrite Ha | now apply IH].
  - now rewrite Hvals.
  - apply validate_weights_unchanged. rewrite Hvals, Hone.
    replace (1 - 1) with 0 by ring. rewrite Rabs_R0. lra.
Qed.

Lemma schema_portfolio_weights_witness :
  exists w,
    extract_weights_from_portfolio
      (PortfolioObject
         (Some [mkHolding "AAA" (Some 60) None None;
                mkHolding "BBB" (Some 40) None None]) None) = Some w /\
    validate_weights w = Returns w.
Proof.
  destruct (schema_portfolio_weights
              [mkHolding "AAA" (Some 60) None None;
               mkHolding "BBB" (Some 40) None None] [60; 40] None)
    as [w [Hw [_ [_ [_ Hv]]]]].
  - discriminate.
  - repeat constructor; simpl; intuition discriminate.
  - reflexivity.
  - simpl. lra.
  - exists w. split; assumption.
Defined.

(** ** Market tools *)

Lemma sqrt252_pos : 0 < sqrt 252.
Proof. apply sqrt_lt_R0. lra. Qed.

(** X17: [calculate_volatility] never yields a NaN [sharpe_ratio]: the
    guard makes it 0 whenever the standard deviation of the returns is not
    positive, as with fewer than two daily returns; and its
    [volatility], in percent, is the number the backtester's metric
    computation stores under [volatility] for the same closing prices. *)
Theorem calculate_volatility_guarded (close : Series) :
  exists vol avg sharpe,
    calculate_volatility (History close)
      = VolatilityMetrics vol avg (Num sharpe) /\
    (np_pos (std (values (calculate_returns close))) = false -> sharpe = 0) /\
    forall bench m,
      calculate_performance_metrics (calculate_returns close) bench
        = Returns m ->
      Dict.get "volatility" m = Some (pct vol).
Proof.
  unfold calculate_volatility.
  set (returns := values (calculate_returns close)).
  assert (Hsharpe : exists sharpe,
            (if np_pos (std returns)
             then np_div (np_mul (series_mean returns) (Num 252))
                         (np_mul (std returns) (Num (sqrt 252)))
             else Num 0) = Num sharpe /\
            (np_pos (std returns) = false -> sharpe = 0)).
  { destruct (std returns) as [s|] eqn:Hstd; cbn [np_pos];
      [|exists 0; split; [reflexivity | reflexivity]].
    destruct (Rlt_dec 0 s) as [Hs|Hs];
      [|exists 0; split; [reflexivity | reflexivity]].
    assert (Hmean : exists mu, series_mean returns = Num mu).
    { destruct returns; [discriminate | now eexists]. }
    destruct Hmean as [mu ->]. cbn [np_mul np_div].
    pose proof sqrt252_pos.
    destruct (Req_dec_T (s * sqrt 252) 0) as [Hz|Hnz].
    - exfalso. apply Rmult_integral in Hz. destruct Hz; lra.
    - eexists. split; [reflexivity | discriminate]. }
  destruct Hsharpe as [sharpe [Heq Hzero]].
  exists (np_mul (std returns) (Num (sqrt 252))),
         (np_mul (series_mean returns) (Num 252)), sharpe.
  split; [now rewrite Heq|]. split; [exact Hzero|].
  intros bench m Hrun. unfold calculate_performance_metrics in Hrun.
  destruct (length (calculate_returns close)); [discriminate|].
  injection Hrun as <-.
  rewrite benchmark_metrics_get by discriminate. reflexivity.
Qed.

Lemma iloc_last_cons (x : date * R) (tl : Series) :
  iloc_last (x :: tl) = Returns (snd (last tl x)).
Proof.
  unfold iloc_last.
  assert (Hne : x :: tl <> []) by discriminate.
  rewrite (app_removelast_last x Hne) at 1.
  rewrite rev_app_distr. cbn [rev app]. rewrite last_cons.
  now destruct (last tl x).
Qed.

(** X18: [get_sector_performance] looks the sector up in its ETF table and
    falls back to SPY for an unknown sector; it answers with the error entry
    when the provider fails or the history is empty; and for a history
    without a zero price its one-month change is the total return, in
    percent, that the backtester computes from the daily returns of the same
    closes, its current price being the last close. *)
Theorem sector_performance_matches_backtester
    (history : ticker -> response) (sector : string) :
  let etf := match Dict.get sector sector_etfs with
             | Some e => e
             | None => "SPY"
             end in
  (history etf = ProviderError ->
   get_sector_performance history sector = SectorError) /\
  (history etf = History [] ->
   get_sector_performance history sector = SectorError) /\
  (forall d0 p0 tl,
     history etf = History ((d0, p0) :: tl) ->
     nonzero_prices ((d0, p0) :: tl) ->
     get_sector_performance history sector
     = SectorPerformance etf
         (pct (Num (total_return_of (calculate_returns ((d0, p0) :: tl)))))
         (snd (last tl (d0, p0)))).
Proof.
  intros etf. subst etf. unfold get_sector_performance.
  split; [|split].
  - intros ->. reflexivity.
  - intros ->. reflexivity.
  - intros d0 p0 tl -> Hnz.
    rewrite iloc_last_cons. cbn [iloc_first].
    rewrite (total_return_is_endpoint_change_aux d0 p0 tl Hnz).
    apply Forall_cons_iff in Hnz as [Hp0 _]. cbn [snd] in Hp0.
    cbn [np_div]. destruct (Req_dec_T p0 0); [contradiction|].
    unfold pct, np_mul. do 3 f_equal. field. exact Hp0.
Qed.

Lemma sector_performance_matches_backtester_witness :
  get_sector_performance
    (fun _ => History [(1%nat, 100); (2%nat, 110); (3%nat, 121)]) "Crypto"
  = SectorPerformance "SPY"
      (pct (Num (total_return_of
                   (calculate_returns [(1%nat, 100); (2%nat, 110); (3%nat, 121)]))))
      121.
Proof.
  apply (proj2 (proj2 (sector_performance_matches_backtester
           (fun _ => History [(1%nat, 100); (2%nat, 110); (3%nat, 121)])
           "Crypto")) 1%nat 100 [(2%nat, 110); (3%nat, 121)] eq_refl).
  repeat constructor; simpl; lra.
Defined.

(** ** Which dates survive the alignment *)

Lemma insert_date_increasing (d : date) (l : list date) :
  increasing l -> increasing (insert_date d l).
Proof.
  induction l as [|x tl IH]; intros Hinc.
  - simpl. tauto.
  - destruct Hinc as [Hx Htl]. cbn [insert_date].
    destruct (Nat.ltb_spec d x) as [Hlt|Hge].
    + cbn [increasing]. split; [|split; assumption].
      intros y [<-|Hy]; [exact Hlt | specialize (Hx y Hy); lia].
    + destruct (Nat.eqb_spec d x) as [->|Hne]; [split; assumption|].
      cbn [increasing]. split; [|now apply IH].
      intros y Hy. apply insert_date_in in Hy as [->|Hy]; [lia | now apply Hx].
Qed.

Lemma union_index_increasing (cols : list Series) :
  increasing (union_index cols).
Proof.
  induction cols as [|s tl IH]; [exact I|].
  cbn [union_index fold_right].
  induction (index s) as [|d ds IHd]; [exact IH|].
  cbn [fold_right]. now apply insert_date_increasing.
Qed.

Lemma union_index_in_iff (cols : list Series) (d : date) :
  In d (union_index cols) <-> exists s, In s cols /\ In d (index s).
Proof.
  split.
  - induction cols as [|c tl IH]; [contradiction|].
    cbn [union_index fold_right]. rewrite fold_insert_date_in.
    intros [Hd|Hd].
    + exists c. split; [now left | exact Hd].
    + destruct (IH Hd) as [s [Hs Hds]]. exists s. split; [now right | exact Hds].
  - intros [s [Hs Hd]]. now apply (union_index_in cols s).
Qed.

Lemma series_at_num_iff (d : date) (s : Series) :
  is_num (series_at d s) = true <-> In d (index s).
Proof.
  split; [|apply series_at_in].
  induction s as [|[d' v] tl IH]; [discriminate|]. simpl.
  destruct (Nat.eqb_spec d d') as [->|Hne]; [now left|].
  intros H. right. now apply IH.
Qed.

Lemma all_num_sound (l : list npfloat) (l' : list R) :
  all_num l = Some l' ->
  forall j, (j < length l)%nat -> is_num (nth j l NaN) = true.
Proof.
  revert l'. induction l as [|x tl IH]; intros l' H j Hj.
  - simpl in Hj. lia.
  - destruct x as [r|]; [|discriminate]. simpl in H.
    destruct (all_num tl) as [t'|] eqn:Ht; [|discriminate].
    destruct j as [|j]; [reflexivity|].
    apply (IH t' eq_refl). simpl in Hj. lia.
Qed.

(** The dates kept by forward fill and dropna over increasing dates. *)
Lemma aligned_dates_from (vals : list Series) (ds : list date) :
  forall prev d, increasing ds ->
  In d (map fst (dropna_rows (ffill_from prev
           (map (fun d => (d, map (series_at d) vals)) ds)))) <->
  In d ds /\ quoted_by vals prev ds d.
Proof.
  induction ds as [|d0 rest IH]; intros prev d Hinc.
  - simpl. tauto.
  - destruct Hinc as [Hd0 Hrest].
    cbn [map ffill_from dropna_rows].
    set (row0 := map (series_at d0) vals).
    assert (Hlen0 : length (fill_row prev row0) = length vals)
      by (subst row0; now rewrite fill_row_length, length_map).
    assert (Hcell : forall j, (j < length vals)%nat ->
              is_num (nth j (fill_row prev row0) NaN)
              = is_num (series_at d0 (nth j vals [])) || is_num (nth j prev NaN)).
    { intros j Hj. rewrite fill_row_nth by (subst row0; now rewrite length_map).
      subst row0. change NaN with (series_at d0 []) at 1.
      now rewrite map_nth. }
    assert (Hstep : forall x, In x rest ->
              (quoted_by vals (fill_row prev row0) rest x
               <-> quoted_by vals prev (d0 :: rest) x)).
    { intros x Hx. specialize (Hd0 x Hx). unfold quoted_by. split.
      - intros Hq j Hj. destruct (Hq j Hj) as [Hp|[d' [Hin [Hle Hidx]]]].
        + rewrite Hcell in Hp by exact Hj.
          apply orb_true_iff in Hp as [Hp|Hp]; [right | now left].
          exists d0. split; [now left|]. split; [lia|].
          now apply series_at_num_iff.
        + right. exists d'. split; [now right|]. split; assumption.
      - intros Hq j Hj. destruct (Hq j Hj) as [Hp|[d' [[<-|Hin] [Hle Hidx]]]].
        + left. rewrite Hcell by exact Hj. rewrite Hp. apply orb_true_r.
        + left. rewrite Hcell by exact Hj.
          apply series_at_num_iff in Hidx. now rewrite Hidx.
        + right. exists d'. split; [exact Hin|]. split; assumption. }
    assert (Hhead : (exists r', all_num (fill_row prev row0) = Some r')
                    <-> quoted_by vals prev (d0 :: rest) d0).
    { split.
      - intros [r' Hr'] j Hj.
        pose proof (all_num_sound _ _ Hr' j ltac:(lia)) as Hn.
        rewrite Hcell in Hn by exact Hj.
        apply orb_true_iff in Hn as [Hn|Hn]; [right | now left].
        exists d0. split; [now left|]. split; [lia|].
        now apply series_at_num_iff.
      - intros Hq. apply all_num_complete. intros j Hj.
        rewrite Hlen0 in Hj. rewrite Hcell by exact Hj.
        destruct (Hq j Hj) as [Hp|[d' [[<-|Hin] [Hle Hidx]]]].
        + rewrite Hp. apply orb_true_r.
        + apply series_at_num_iff in Hidx. now rewrite Hidx.
        + specialize (Hd0 d' Hin). lia. }
    assert (Htail : forall x,
              In x (map fst (dropna_rows (ffill_from (fill_row prev row0)
                      (map (fun d => (d, map (series_at d) vals)) rest))))
              <-> In x rest /\ quoted_by vals prev (d0 :: rest) x).
    { intros x. rewrite (IH _ x Hrest). split.
      - intros [Hx Hq]. split; [exact Hx | now apply Hstep].
      - intros [Hx Hq]. split; [exact Hx | now apply Hstep]. }
    destruct (all_num (fill_row prev row0)) as [r'|] eqn:Hnum.
    + cbn [map fst In]. rewrite Htail. split.
      * intros [<-|[Hx Hq]].
        -- split; [now left | apply Hhead; now eexists].
        -- split; [now right | exact Hq].
      * intros [[<-|Hx] Hq]; [now left | right; now split].
    + rewrite Htail. split.
      * intros [Hx Hq]. split; [now right | exact Hq].
      * intros [[<-|Hx] Hq]; [|now split].
        exfalso. apply Hhead in Hq as [r' Hr']. discriminate.
Qed.

(** X19: after building the price frame, forward filling and dropping the
    incomplete rows, a date is kept exactly when some instrument is quoted
    on it and every instrument has a quote on that date or earlier: the
    aligned period starts at the latest first quote and keeps every later
    date of any instrument, whether or not the histories overlap. *)
Theorem aligned_dates (data : Dict.t Series) (d : date) :
  In d (map fst (rows (dropna (ffill (make_frame data))))) <->
  (exists s, In s (Dict.vals data) /\ In d (index s)) /\
  (forall s, In s (Dict.vals data) ->
     exists d', In d' (index s) /\ (d' <= d)%nat).
Proof.
  unfold dropna, ffill, make_frame. cbn [rows].
  rewrite aligned_dates_from by apply union_index_increasing.
  rewrite union_index_in_iff. unfold quoted_by. split.
  - intros [Hd Hq]. split; [exact Hd|]. intros s Hs.
    destruct (@In_nth Series _ _ [] Hs) as [j [Hj Hnth]].
    destruct (Hq j Hj) as [Hp|[d' [_ [Hle Hidx]]]].
    + destruct j; discriminate.
    + exists d'. rewrite Hnth in Hidx. split; assumption.
  - intros [Hd Hall]. split; [exact Hd|]. intros j Hj. right.
    destruct (Hall (nth j (Dict.vals data) []) (nth_In _ _ Hj))
      as [d' [Hidx Hle]].
    exists d'. split; [|split; assumption].
    apply union_index_in_iff. exists (nth j (Dict.vals data) []).
    split; [now apply nth_In | exact Hidx].
Qed.

(** ** Weights met by the weighted backtest *)

Lemma validate_weights_keys (w w' : Dict.t R) :
  validate_weights w = Returns w' -> Dict.keys w' = Dict.keys w.
Proof.
  intros Hv. unfold validate_weights in Hv.
  destruct (Rlt_dec 0.01 (Rabs (sum (Dict.vals w) - 1))).
  - destruct (Req_dec_T (sum (Dict.vals w)) 0) as [Hz|Hnz].
    + rewrite Hz in Hv. destruct w as [|[k v] tl].
      * now injection Hv as <-.
      * rewrite divide_weights_zero in Hv. discriminate.
    + rewrite divide_weights_returns in Hv by exact Hnz.
      injection Hv as <-. unfold Dict.keys. now rewrite map_map.
  - now injection Hv as <-.
Qed.

(** X20: in the weighted backtest every ticker of the result is a key of
    the supplied weight mapping and has an entry in the validated weights
    stored in the result: the fallback weight 0 of the weighted sum is never
    used. *)
Theorem every_instrument_has_its_weight
    (provider : Provider) (self : PortfolioBacktester) (weights : Dict.t R)
    (sd ed : string) (b : ticker)
    (self' : PortfolioBacktester) (res : BacktestResult) :
  backtest_weighted_portfolio provider self weights sd ed b
    = Returns (self', Results res) ->
  exists w',
    portfolio_weights res = Some w' /\
    Dict.keys w' = Dict.keys weights /\
    forall t, In t (tickers res) ->
      In t (Dict.keys weights) /\ exists x, Dict.get t w' = Some x.
Proof.
  intros Hrun. unfold backtest_weighted_portfolio in Hrun.
  destruct (validate_weights weights) as [w'|] eqn:Hv; [|discriminate].
  cbn [bind] in Hrun. destruct (frame_empty _); [discriminate|].
  apply finish_backtest_inv in Hrun as [_ [_ [Hw [Htk _]]]].
  pose proof (validate_weights_keys _ _ Hv) as Hkeys.
  exists w'. split; [exact Hw|]. split; [exact Hkeys|].
  intros t Ht. rewrite Htk in Ht.
  apply load_prices_columns_in in Ht as [Hin _].
  split; [now rewrite <- Hkeys | now apply get_in_keys].
Qed.

Lemma every_instrument_has_its_weight_witness :
  exists self' res w',
    backtest_weighted_portfolio demo (fresh 100000)
      [("AAA", 0.6); ("BBB", 0.4)] "2024-01-01" "2024-01-04" "SPY"
    = Returns (self', Results res) /\
    portfolio_weights res = Some w' /\
    Dict.keys w' = ["AAA"; "BBB"].
Proof.
  destruct demo_weighted_run as [self' [res Hrun]].
  destruct (every_instrument_has_its_weight _ _ _ _ _ _ _ _ Hrun)
    as [w' [Hw [Hk _]]].
  exists self', res, w'. repeat split; assumption.
Defined.

(** ** The correlation matrix *)












(** ** Labels of the result *)

Lemma individual_loop_order (returns : Frame R) (cols : list ticker) :
  forall acc im,
    individual_loop returns cols acc = Returns im ->
    NoDup cols ->
    (forall t, In t cols -> ~ In t (Dict.keys acc)) ->
    Dict.keys im = (Dict.keys acc ++ cols)%list.
Proof.
  induction cols as [|c tl IH]; intros acc im Hrun Hnd Hfresh.
  - injection Hrun as <-. now rewrite app_nil_r.
  - cbn [individual_loop] in Hrun.
    destruct (calculate_performance_metrics (column returns c) None) as [m|];
      [|discriminate].
    cbn [bind] in Hrun. inversion Hnd as [|? ? Hc Htl]; subst.
    rewrite (IH _ _ Hrun Htl).
    + rewrite set_fresh_key by (apply Hfresh; now left).
      unfold Dict.keys. rewrite map_app. cbn [map fst].
      now rewrite <- app_assoc.
    + intros t Ht Hin. apply keys_set_in in Hin as [->|Hin];
        [contradiction | apply (Hfresh t); [now right | exact Hin]].
Qed.

Lemma finish_backtest_labels (p : Provider) self bench (ts : list ticker)
    weights pr sd ed b self' res :
  finish_backtest self bench (snd (load_prices p ts sd ed b))
    (dropna (pct_change (snd (load_prices p ts sd ed b)))) weights pr sd ed
    = Returns (self', Results res) ->
  NoDup (tickers res) /\
  Dict.keys (individual_metrics res) = tickers res /\
  Dict.keys (correlation_matrix res) = tickers res.
Proof.
  intros Hrun.
  apply finish_backtest_inv in Hrun
    as [_ [_ [_ [Htk [Hcorr [_ [_ [Hind _]]]]]]]].
  pose proof (load_prices_columns_nodup p ts sd ed b) as Hnd.
  rewrite Htk, Hcorr, corr_keys. split; [exact Hnd|]. split; [|reflexivity].
  now rewrite (individual_loop_order _ _ _ _ Hind Hnd).
Qed.

(** X22: in both backtests the result lists each ticker once, and the keys
    of [individual_metrics] and of [correlation_matrix] are the tickers of
    the result, in the same order. *)
Theorem result_labels_agree :
  (forall provider self requested sd ed b self' res,
     backtest_equal_weight_portfolio provider self requested sd ed b
       = Returns (self', Results res) ->
     NoDup (tickers res) /\
     Dict.keys (individual_metrics res) = tickers res /\
     Dict.keys (correlation_matrix res) = tickers res) /\
  (forall provider self weights sd ed b self' res,
     backtest_weighted_portfolio provider self weights sd ed b
       = Returns (self', Results res) ->
     NoDup (tickers res) /\
     Dict.keys (individual_metrics res) = tickers res /\
     Dict.keys (correlation_matrix res) = tickers res).
Proof.
  split.
  - intros provider self requested sd ed b self' res Hrun.
    unfold backtest_equal_weight_portfolio in Hrun.
    destruct (frame_empty _); [discriminate|].
    eapply finish_backtest_labels. exact Hrun.
  - intros provider self weights sd ed b self' res Hrun.
    unfold backtest_weighted_portfolio in Hrun.
    destruct (validate_weights weights); [|discriminate]. cbn [bind] in Hrun.
    destruct (frame_empty _); [discriminate|].
    eapply finish_backtest_labels. exact Hrun.
Qed.

Lemma result_labels_agree_witness :
  exists self' res,
    backtest_equal_weight_portfolio demo (fresh 100000) ["AAA"; "BBB"]
      "2024-01-01" "2024-01-04" "SPY" = Returns (self', Results res) /\
    Dict.keys (individual_metrics res) = tickers res.
Proof.
  destruct demo_equal_run as [self' [res Hrun]].
  exists self', res. split; [exact Hrun|].
  apply (proj1 result_labels_agree _ _ _ _ _ _ _ _ Hrun).
Defined.

(** ** The portfolio return as an average *)

Lemma sum_bounds (lo hi : R) (row : list R) :
  (forall x, In x row -> lo <= x <= hi) ->
  INR (length row) * lo <= sum row <= INR (length row) * hi.
Proof.
  induction row as [|x tl IH]; intros Hb.
  - simpl. lra.
  - change (sum (x :: tl)) with (x + sum tl). cbn [length]. rewrite S_INR.
    specialize (IH (fun y Hy => Hb y (or_intror Hy))).
    specialize (Hb x (or_introl eq_refl)). lra.
Qed.

Lemma mean_bounds (lo hi : R) (row : list R) :
  row <> [] -> (forall x, In x row -> lo <= x <= hi) ->
  lo <= mean row <= hi.
Proof.
  intros Hne Hb. pose proof (sum_bounds lo hi row Hb) as [H1 H2].
  assert (Hk : 0 < INR (length row)).
  { destruct row; [contradiction|]. apply lt_0_INR. simpl. lia. }
  unfold mean. split.
  - apply (Rmult_le_reg_l (INR (length row))); [exact Hk|].
    replace (INR (length row) * (sum row / INR (length row))) with (sum row)
      by (field; lra). exact H1.
  - apply (Rmult_le_reg_l (INR (length row))); [exact Hk|].
    replace (INR (length row) * (sum row / INR (length row))) with (sum row)
      by (field; lra). exact H2.
Qed.

(** X23: in the equal-weight backtest, the portfolio return of every date
    lies between the smallest and the largest instrument return of that
    date. *)
Theorem equal_weight_return_between_extremes
    (provider : Provider) (self : PortfolioBacktester)
    (requested : list ticker) (sd ed : string) (b : ticker)
    (self' : PortfolioBacktester) (res : BacktestResult) :
  backtest_equal_weight_portfolio provider self requested sd ed b
    = Returns (self', Results res) ->
  forall t d row lo hi,
    nth_error (rows (dropna (pct_change
                 (snd (load_prices provider requested sd ed b))))) t
      = Some (d, row) ->
    (forall x, In x row -> lo <= x <= hi) ->
    exists r, nth_error (portfolio_returns res) t = Some (d, r) /\
              lo <= r <= hi.
Proof.
  intros Hrun t d row lo hi Hnth Hb.
  unfold backtest_equal_weight_portfolio in Hrun.
  destruct (frame_empty _) eqn:Hfe; [discriminate|].
  apply finish_backtest_inv in Hrun as [-> _].
  exists (mean row). split.
  - unfold mean_axis1. now rewrite nth_error_map, Hnth.
  - apply mean_bounds; [|exact Hb].
    pose proof (returns_rectangular provider requested sd ed b) as Hrect.
    unfold rectangular in Hrect. rewrite Forall_forall in Hrect.
    specialize (Hrect (d, row) (nth_error_In _ _ Hnth)). cbn [snd] in Hrect.
    unfold frame_empty in Hfe. apply orb_false_iff in Hfe as [_ Hcols].
    apply Nat.eqb_neq in Hcols. intros ->. cbn [length] in Hrect. lia.
Qed.

Lemma demo_returns_first_row :
  exists row,
    nth_error (rows (dropna (pct_change
                 (snd (load_prices demo ["AAA"; "BBB"]
                         "2024-01-01" "2024-01-04" "SPY"))))) 0
      = Some (2%nat, row) /\
    forall x, In x row -> -1 <= x <= 1.
Proof.
  evaluate. eexists. split; [reflexivity|].
  intros x [<-|[<-|[]]]; lra.
Qed.

Lemma equal_weight_return_between_extremes_witness :
  exists self' res r,
    backtest_equal_weight_portfolio demo (fresh 100000) ["AAA"; "BBB"]
      "2024-01-01" "2024-01-04" "SPY" = Returns (self', Results res) /\
    nth_error (portfolio_returns res) 0 = Some (2%nat, r) /\
    -1 <= r <= 1.
Proof.
  destruct demo_equal_run as [self' [res Hrun]].
  destruct demo_returns_first_row as [row [Hrow Hb]].
  destruct (equal_weight_return_between_extremes demo (fresh 100000)
              ["AAA"; "BBB"] "2024-01-01" "2024-01-04" "SPY" self' res Hrun
              0%nat 2%nat row (-1) 1 Hrow Hb) as [r [Hr Hrange]].
  exists self', res, r. repeat split; try assumption; apply Hrange.
Defined.

(** ** The value curve stays positive *)

(** X24: with a positive capital and every return of the series above
    -100%, every value of the compounded capital curve is positive. *)
Theorem compound_stays_positive (capital : R) (returns : Series) :
  0 < capital ->
  (forall r, In r (values returns) -> -1 < r) ->
  forall v, In v (values (compound capital returns)) -> 0 < v.
Proof.
  intros Hc Hr v Hv. unfold compound in Hv.
  rewrite values_with_values in Hv by apply compound_scaled_length.
  apply in_map_iff in Hv as [x [<- Hx]].
  pose proof (cumprod_from_pos _ 1 ltac:(lra) (growth_factors_pos returns Hr))
    as Hpos.
  rewrite Forall_forall in Hpos. specialize (Hpos x Hx).
  now apply Rmult_lt_0_compat.
Qed.

Lemma compound_stays_positive_witness :
  0 < hd 0 (values (compound 100000 [(1%nat, 0.01); (2%nat, -0.02)])).
Proof.
  apply (compound_stays_positive 100000 [(1%nat, 0.01); (2%nat, -0.02)]).
  - lra.
  - intros r Hin. simpl in Hin. destruct Hin as [<-|[<-|[]]]; lra.
  - cbn. now left.
Defined.

(** ** The volatility guard under rounding *)

(** C5 (evaluated at the failing input): on doubles the series of ten equal
    returns 0.001 has a mean one unit in the last place above 0.001, hence a
    standard deviation of about 2.29e-19 instead of 0 and a positive
    volatility of about 3.63e-18; the guard [volatility > 0] passes and
    [sharpe_ratio] is the quotient [annualized_return / volatility], not the
    value 0 of the else-branch. *)
Theorem constant_returns_positive_volatility :
  PrimFloat.div (np_sum (repeat one_per_mille 10)) (float_of_nat 10)
    = 0x1.0624dd2f1a9fdp-10%float /\
  std_double (repeat one_per_mille 10) = 0x1.0dd90273c3ce2p-62%float /\
  volatility_double (repeat one_per_mille 10) = 0x1.0bbb307acafdbp-58%float /\
  PrimFloat.ltb 0%float (volatility_double (repeat one_per_mille 10)) = true /\
  forall annualized_return,
    sharpe_ratio_double annualized_return (repeat one_per_mille 10)
    = PrimFloat.div annualized_return 0x1.0bbb307acafdbp-58%float.
Proof.
  assert (Hvol : volatility_double (repeat one_per_mille 10)
                 = 0x1.0bbb307acafdbp-58%float) by (vm_compute; reflexivity).
  split; [vm_compute; reflexivity|].
  split; [vm_compute; reflexivity|].
  split; [exact Hvol|].
  split; [rewrite Hvol; reflexivity|].
  intros annualized_return. unfold sharpe_ratio_double.
  rewrite Hvol. reflexivity.
Qed.

(** ** Capital curve *)

Lemma index_mean_axis1 (f : Frame R) : index (mean_axis1 f) = map fst (rows f).
Proof. unfold index, mean_axis1. now rewrite map_map. Qed.

Lemma index_weighted_sum (w : Dict.t R) (f : Frame R) :
  index (weighted_sum w f) = map fst (rows f).
Proof. unfold index, weighted_sum. now rewrite map_map. Qed.

(** What a completed run stores, read against the return matrix it was
    computed from. *)
Lemma finish_backtest_curve self bench prices returns weights pr sd ed
    self' res :
  finish_backtest self bench prices returns weights pr sd ed
    = Returns (self', Results res) ->
  index pr = map fst (rows returns) ->
  rows returns <> [] /\
  portfolio_returns res = pr /\
  index (portfolio_value res) = map fst (rows returns) /\
  length (portfolio_value res) = length (rows returns) /\
  compounds_daily (initial_capital self) pr (portfolio_value res).
Proof.
  intros Hrun Hidx.
  apply finish_backtest_inv in Hrun as [Hpr [Hpv [_ [_ [_ [_ [Hm _]]]]]]].
  assert (Hlen : length pr = length (rows returns)).
  { rewrite <- (length_map fst (rows returns)), <- Hidx.
    unfold index. now rewrite length_map. }
  split.
  - intros Hnil. rewrite Hnil in Hlen. apply length_zero_iff_nil in Hlen.
    rewrite Hlen in Hm. discriminate.
  - split; [exact Hpr|]. rewrite Hpv.
    destruct (compound_compounds_daily (initial_capital self) pr) as [Hi Hn].
    split; [now rewrite Hi|].
    split; [now rewrite compound_length|].
    split; assumption.
Qed.

Lemma three_day_equal_run :
  exists self' res,
    backtest_equal_weight_portfolio three_day (fresh 100000) ["AAA"]
      "2024-01-01" "2024-01-05" "SPY" = Returns (self', Results res) /\
    portfolio_returns res = [(2%nat, 0.01); (3%nat, -0.02); (4%nat, 0.03)] /\
    portfolio_value res
    = [(2%nat, 101000); (3%nat, 98980); (4%nat, 101949.4)].
Proof.
  unfold backtest_equal_weight_portfolio. evaluate.
  eexists. eexists. split; [reflexivity|]. split.
  - cbn. unfold mean. cbn.
    f_equal; [f_equal; lra|]. f_equal; [f_equal; lra|]. f_equal. f_equal. lra.
  - cbn. unfold mean. cbn.
    f_equal; [f_equal; lra|]. f_equal; [f_equal; lra|]. f_equal. f_equal. lra.
Qed.

Lemma whole_weight_valid :
  validate_weights [("AAA", 1)] = Returns [("AAA", 1)].
Proof.
  apply validate_weights_unchanged. simpl.
  unfold Rabs. destruct (Rcase_abs (1 + 0 - 1)); lra.
Qed.

Lemma three_day_weighted_run :
  exists self' res,
    backtest_weighted_portfolio three_day (fresh 100000) [("AAA", 1)]
      "2024-01-01" "2024-01-05" "SPY" = Returns (self', Results res) /\
    portfolio_returns res = [(2%nat, 0.01); (3%nat, -0.02); (4%nat, 0.03)] /\
    portfolio_value res
    = [(2%nat, 101000); (3%nat, 98980); (4%nat, 101949.4)].
Proof.
  unfold backtest_weighted_portfolio. rewrite whole_weight_valid.
  cbn [bind]. evaluate.
  eexists. eexists. split; [reflexivity|]. split.
  - cbn. unfold weight_of. cbn.
    f_equal; [f_equal; lra|]. f_equal; [f_equal; lra|]. f_equal. f_equal. lra.
  - cbn. unfold weight_of. cbn.
    f_equal; [f_equal; lra|]. f_equal; [f_equal; lra|]. f_equal. f_equal. lra.
Qed.

(** C1: a backtest (equal-weight or weighted) whose aligned return matrix is
    not empty returns a populated result; in every populated result the
    portfolio return series is the row mean (or the weighted row sum) of that
    matrix, one entry per date, the matrix is not empty, and the portfolio
    value trajectory has the same dates and, at every date [t], equals the
    initial capital times the product of [1 + portfolio return] over the
    dates up to [t]; the backtests of an instrument whose returns are
    [0.01, -0.02, 0.03], run with a capital of 100000, give the trajectory
    [101000, 98980, 101949.4]. *)
Theorem portfolio_value_compounds :
  (forall provider self requested sd ed b,
     (forall self' res,
        backtest_equal_weight_portfolio provider self requested sd ed b
          = Returns (self', Results res) ->
        rows (dropna (pct_change
                (snd (load_prices provider requested sd ed b)))) <> [] /\
        portfolio_returns res
        = mean_axis1 (dropna (pct_change
                        (snd (load_prices provider requested sd ed b)))) /\
        index (portfolio_value res)
        = map fst (rows (dropna (pct_change
                     (snd (load_prices provider requested sd ed b))))) /\
        length (portfolio_value res)
        = length (rows (dropna (pct_change
                     (snd (load_prices provider requested sd ed b))))) /\
        compounds_daily (initial_capital self)
          (mean_axis1 (dropna (pct_change
                         (snd (load_prices provider requested sd ed b)))))
          (portfolio_value res)) /\
     (rows (dropna (pct_change
              (snd (load_prices provider requested sd ed b)))) <> [] ->
      exists self' res,
        backtest_equal_weight_portfolio provider self requested sd ed b
          = Returns (self', Results res))) /\
  (forall provider self weights sd ed b,
     (forall self' res,
        backtest_weighted_portfolio provider self weights sd ed b
          = Returns (self', Results res) ->
        exists w',
          validate_weights weights = Returns w' /\
          rows (dropna (pct_change
                  (snd (load_prices provider (Dict.keys w') sd ed b)))) <> [] /\
          portfolio_returns res
          = weighted_sum w'
              (dropna (pct_change
                 (snd (load_prices provider (Dict.keys w') sd ed b)))) /\
          index (portfolio_value res)
          = map fst (rows (dropna (pct_change
                       (snd (load_prices provider (Dict.keys w') sd ed b))))) /\
          length (portfolio_value res)
          = length (rows (dropna (pct_change
                       (snd (load_prices provider (Dict.keys w') sd ed b))))) /\
          compounds_daily (initial_capital self)
            (weighted_sum w'
               (dropna (pct_change
                  (snd (load_prices provider (Dict.keys w') sd ed b)))))
            (portfolio_value res)) /\
     (forall w',
        validate_weights weights = Returns w' ->
        rows (dropna (pct_change
               (snd (load_prices provider (Dict.keys w') sd ed b)))) <> [] ->
        exists self' res,
          backtest_weighted_portfolio provider self weights sd ed b
            = Returns (self', Results res))) /\
  (exists self' res,
     backtest_equal_weight_portfolio three_day (fresh 100000) ["AAA"]
       "2024-01-01" "2024-01-05" "SPY" = Returns (self', Results res) /\
     portfolio_returns res = [(2%nat, 0.01); (3%nat, -0.02); (4%nat, 0.03)] /\
     portfolio_value res
     = [(2%nat, 101000); (3%nat, 98980); (4%nat, 101949.4)]) /\
  (exists self' res,
     backtest_weighted_portfolio three_day (fresh 100000) [("AAA", 1)]
       "2024-01-01" "2024-01-05" "SPY" = Returns (self', Results res) /\
     portfolio_returns res = [(2%nat, 0.01); (3%nat, -0.02); (4%nat, 0.03)] /\
     portfolio_value res
     = [(2%nat, 101000); (3%nat, 98980); (4%nat, 101949.4)]).
Proof.
  split; [|split; [|split]].
  - intros provider self requested sd ed b. split.
    + intros self' res Hrun.
      unfold backtest_equal_weight_portfolio in Hrun.
      destruct (frame_empty _); [discriminate|].
      apply finish_backtest_curve in Hrun; [|apply index_mean_axis1].
      tauto.
    + apply backtest_equal_total.
  - intros provider self weights sd ed b. split.
    + intros self' res Hrun.
      unfold backtest_weighted_portfolio in Hrun.
      destruct (validate_weights weights) as [w'|e]; [|discriminate].
      cbn [bind] in Hrun. exists w'. split; [reflexivity|].
      destruct (frame_empty _); [discriminate|].
      apply finish_backtest_curve in Hrun; [|apply index_weighted_sum].
      tauto.
    + intros w'. apply backtest_weighted_total.
  - exact three_day_equal_run.
  - exact three_day_weighted_run.
Qed.

Lemma portfolio_value_compounds_witness :
  (exists self' res,
     backtest_equal_weight_portfolio demo (fresh 100000) ["AAA"; "BBB"]
       "2024-01-01" "2024-01-04" "SPY" = Returns (self', Results res) /\
     length (portfolio_value res)
     = length (rows (dropna (pct_change
                  (snd (load_prices demo ["AAA"; "BBB"]
                          "2024-01-01" "2024-01-04" "SPY"))))) /\
     compounds_daily 100000
       (mean_axis1 (dropna (pct_change
                      (snd (load_prices demo ["AAA"; "BBB"]
                              "2024-01-01" "2024-01-04" "SPY")))))
       (portfolio_value res)) /\
  (exists self' res w',
     backtest_weighted_portfolio demo (fresh 100000)
       [("AAA", 0.6); ("BBB", 0.4)] "2024-01-01" "2024-01-04" "SPY"
     = Returns (self', Results res) /\
     validate_weights [("AAA", 0.6); ("BBB", 0.4)] = Returns w' /\
     compounds_daily 100000
       (weighted_sum w'
          (dropna (pct_change
             (snd (load_prices demo (Dict.keys w')
                     "2024-01-01" "2024-01-04" "SPY")))))
       (portfolio_value res)).
Proof.
  split.
  - destruct demo_equal_run as [self' [res Hrun]].
    exists self', res. split; [exact Hrun|].
    destruct (proj1 (proj1 portfolio_value_compounds _ _ _ _ _ _) _ _ Hrun)
      as [_ [_ [_ [Hlen Hc]]]].
    split; assumption.
  - destruct demo_weighted_run as [self' [res Hrun]].
    destruct (proj1 (proj1 (proj2 portfolio_value_compounds) _ _ _ _ _ _)
                _ _ Hrun) as [w' [Hv [_ [_ [_ [_ Hc]]]]]].
    exists self', res, w'. split; [exact Hrun|]. split; assumption.
Defined.

(** ** The benchmark among the portfolio symbols *)





